(** * MuseMind backend (server/server.js): a shallow embedding

    The server is one Express application: a middleware stack, two API routes,
    and two string helpers ([buildPrompt], [cleanPoem]).  JavaScript strings are
    sequences of UTF-16 code units; they are modelled as lists of code units so
    that [trim], [split], [join] and the regular expressions of [cleanPoem]
    can be written out the way the engine evaluates them. *)

From Stdlib Require Import List NArith ZArith Bool Lia.
From Stdlib Require Import Strings.String Strings.Ascii.
Import ListNotations.

(** ** JavaScript strings *)

Module JsString.

Definition code_unit := N.
Definition jsstring := list code_unit.

(** An ASCII literal of the source, as code units. *)
Definition lit (s : string) : jsstring :=
  List.map N_of_ascii (list_ascii_of_string s).

Definition jsstring_eqb (a b : jsstring) : bool :=
  if list_eq_dec N.eq_dec a b then true else false.

Local Open Scope N_scope.

Definition LF : code_unit := 10.
Definition STAR : code_unit := 42.
Definition COLON : code_unit := 58.

(** ECMAScript LineTerminator: LF, CR, LS, PS.  The regular-expression
    atom [.] (without the [s] flag) matches everything else. *)
Definition is_line_terminator (c : code_unit) : bool :=
  (c =? 10) || (c =? 13) || (c =? 8232) || (c =? 8233).

(** ECMAScript WhiteSpace together with LineTerminator: what
    [String.prototype.trim] strips and what [\s] matches. *)
Definition is_white_space (c : code_unit) : bool :=
  ((9 <=? c) && (c <=? 13)) || (c =? 32) || (c =? 160) || (c =? 5760)
  || ((8192 <=? c) && (c <=? 8202)) || (c =? 8232) || (c =? 8233)
  || (c =? 8239) || (c =? 8287) || (c =? 12288) || (c =? 65279).

(** [String.prototype.trimStart]. *)
Fixpoint trimStart (s : jsstring) : jsstring :=
  match s with
  | [] => []
  | c :: r => if is_white_space c then trimStart r else s
  end.

(** [String.prototype.trimEnd]: a white-space code unit is dropped exactly
    when nothing survives to its right. *)
Fixpoint trimEnd (s : jsstring) : jsstring :=
  match s with
  | [] => []
  | c :: r =>
      match trimEnd r with
      | [] => if is_white_space c then [] else [c]
      | t => c :: t
      end
  end.

(** [String.prototype.trim]. *)
Definition trim (s : jsstring) : jsstring := trimEnd (trimStart s).

(** [s.split("\n")]: the empty string splits into one empty line. *)
Fixpoint split_lines (s : jsstring) : list jsstring :=
  match s with
  | [] => [[]]
  | c :: r =>
      if c =? LF then [] :: split_lines r
      else match split_lines r with
           | l :: ls => (c :: l) :: ls
           | [] => [[c]]
           end
  end.

(** [lines.join("\n")]. *)
Fixpoint join_lines (ls : list jsstring) : jsstring :=
  match ls with
  | [] => []
  | [l] => l
  | l :: rest => l ++ LF :: join_lines rest
  end.

(** Canonicalisation of a code unit under the [i] flag (no [u] flag),
    restricted to what decides a comparison with an ASCII pattern character:
    [a-z] fold to [A-Z]; a code unit of 128 or more never folds into ASCII. *)
Definition canonicalize (c : code_unit) : code_unit :=
  if (97 <=? c) && (c <=? 122) then c - 32 else c.

(** Match the literal [pat] case-insensitively at the head of [s]; the
    result is what follows the match. *)
Fixpoint match_ci (pat s : jsstring) : option jsstring :=
  match pat with
  | [] => Some s
  | p :: pat' =>
      match s with
      | [] => None
      | c :: r =>
          if canonicalize c =? canonicalize p then match_ci pat' r else None
      end
  end.

(** Match an alternation of two literals; the first alternative is tried
    first. *)
Definition match_alt (p1 p2 s : jsstring) : option jsstring :=
  match match_ci p1 s with
  | Some r => Some r
  | None => match_ci p2 s
  end.

(** The lazy [.*?] followed by the code unit [stop]: the shortest run of
    non-line-terminators that reaches an occurrence of [stop]. *)
Fixpoint lazy_dots_then (stop : code_unit) (s : jsstring) : option jsstring :=
  match s with
  | [] => None
  | c :: r =>
      if c =? stop then Some r
      else if is_line_terminator c then None
      else lazy_dots_then stop r
  end.

(** [a] is [b] with some elements removed, the others in their order. *)
Inductive subseq {A : Type} : list A -> list A -> Prop :=
| subseq_nil : subseq [] []
| subseq_keep (x : A) (a b : list A) : subseq a b -> subseq (x :: a) (x :: b)
| subseq_drop (x : A) (a b : list A) : subseq a b -> subseq a (x :: b).

(** The number of newline code units of a string. *)
Definition nl_count (s : jsstring) : nat := count_occ N.eq_dec s LF.

End JsString.

Import JsString.

(** ** Response Cleaner *)

Module Cleaner.

Local Open Scope N_scope.

(** [text.replace(/\*\*/g, "")]: pairs of asterisks, left to right, without
    overlap. *)
Fixpoint remove_double_star (s : jsstring) : jsstring :=
  match s with
  | [] => []
  | c :: r =>
      match r with
      | d :: r' =>
          if (c =? STAR) && (d =? STAR) then remove_double_star r'
          else c :: remove_double_star r
      | [] => [c]
      end
  end.

(** [text.replace(/\*/g, "")]. *)
Definition remove_star (s : jsstring) : jsstring :=
  List.filter (fun c => negb (c =? STAR)) s.

(** The match of [/^(Here's|Here is).*?:\s*/i]: the pattern has neither
    the [g] nor the [m] flag, so [^] holds at index 0 only.  The result is
    the text after the match. *)
Definition match_here (s : jsstring) : option jsstring :=
  match match_alt (lit "Here's") (lit "Here is") s with
  | Some r =>
      match lazy_dots_then COLON r with
      | Some r' => Some (trimStart r')
      | None => None
      end
  | None => None
  end.

(** [text.replace(/^(Here's|Here is).*?:\s*/i, "")]. *)
Definition replace_here (s : jsstring) : jsstring :=
  match match_here s with
  | Some rest => rest
  | None => s
  end.

(** The match of [/^(Title|Poem):.*?\n/gi].  Without the [m] flag [^]
    holds at index 0 only, so the [g] flag finds no second match: every
    later attempt starts at a positive index of the same string. *)
Definition match_title (s : jsstring) : option jsstring :=
  match match_alt (lit "Title") (lit "Poem") s with
  | Some r =>
      match match_ci [COLON] r with
      | Some r' => lazy_dots_then LF r'
      | None => None
      end
  | None => None
  end.

(** [text.replace(/^(Title|Poem):.*?\n/gi, "")]. *)
Definition replace_title (s : jsstring) : jsstring :=
  match match_title s with
  | Some rest => rest
  | None => s
  end.

(** [(line) => line.trim().length > 0]. *)
Definition non_blank (line : jsstring) : bool :=
  (0 <? List.length (trim line))%nat.

(** [if (lines.length > 5) lines = lines.slice(0, 5)]. *)
Definition keep_five (lines : list jsstring) : list jsstring :=
  if (5 <? List.length lines)%nat then firstn 5 lines else lines.

Definition cleanPoem (text : jsstring) : jsstring :=
  let text := trim text in
  let text := remove_star (remove_double_star text) in
  let text := replace_here text in
  let text := replace_title text in
  let lines := List.filter non_blank (split_lines text) in
  let lines := keep_five lines in
  trim (join_lines lines).

(** The lines [cleanPoem] joins: non-blank lines of the text left after the
    replacements, at most five of them. *)
Definition kept_lines (text : jsstring) : list jsstring :=
  keep_five
    (List.filter non_blank
       (split_lines
          (replace_title
             (replace_here (remove_star (remove_double_star (trim text))))))).

(** Every line of the text holds a code unit that is not white space. *)
Definition all_lines_non_blank (s : jsstring) : Prop :=
  Forall (fun l => non_blank l = true) (split_lines s).

(** A model reply with emphasis markers and a blank line. *)
Definition sample_poem : jsstring :=
  lit "Roses are *red*" ++ LF :: LF :: lit "  violets are blue ".

End Cleaner.

Import Cleaner.

(** ** Prompt Builder *)

Module Prompt.

(** The values a property read on [themeContexts] can produce: [undefined],
    one of the template strings, or a built-in of [Object.prototype] (the
    object literal inherits from it), named as the language specification
    names it. *)
Inductive js_value :=
| VUndefined
| VString (s : jsstring)
| VBuiltin (name : jsstring).

(** [ToBoolean]. *)
Definition truthy (v : js_value) : bool :=
  match v with
  | VUndefined => false
  | VString s => negb (jsstring_eqb s [])
  | VBuiltin _ => true
  end.

(** The own properties of the object literal [themeContexts], in source
    order; every template interpolates [userInput]. *)
Definition themeContexts (userInput : jsstring) : list (jsstring * jsstring) :=
  [ (lit "lovelines",
     lit "You are a romantic poet. Write a beautiful, heartfelt love poem (exactly 5 lines) about: "
       ++ userInput ++ LF :: lit "Write the poem now:");
    (lit "moodverse",
     lit "You are an emotional poet. Write a deeply emotional poem (exactly 5 lines) that captures these feelings: "
       ++ userInput ++ LF :: lit "Write the poem now:");
    (lit "soulscript",
     lit "You are an inspirational poet. Write an uplifting, reflective affirmation poem (exactly 5 lines) about: "
       ++ userInput ++ LF :: lit "Write the poem now:") ].

(** The properties of [Object.prototype], which every object literal
    inherits: eleven functions and the [__proto__] accessor, whose getter
    returns the prototype object itself. *)
Definition object_prototype : list (jsstring * js_value) :=
  [ (lit "constructor", VBuiltin (lit "Object"));
    (lit "__defineGetter__", VBuiltin (lit "Object.prototype.__defineGetter__"));
    (lit "__defineSetter__", VBuiltin (lit "Object.prototype.__defineSetter__"));
    (lit "hasOwnProperty", VBuiltin (lit "Object.prototype.hasOwnProperty"));
    (lit "__lookupGetter__", VBuiltin (lit "Object.prototype.__lookupGetter__"));
    (lit "__lookupSetter__", VBuiltin (lit "Object.prototype.__lookupSetter__"));
    (lit "isPrototypeOf", VBuiltin (lit "Object.prototype.isPrototypeOf"));
    (lit "propertyIsEnumerable", VBuiltin (lit "Object.prototype.propertyIsEnumerable"));
    (lit "toString", VBuiltin (lit "Object.prototype.toString"));
    (lit "valueOf", VBuiltin (lit "Object.prototype.valueOf"));
    (lit "__proto__", VBuiltin (lit "Object.prototype"));
    (lit "toLocaleString", VBuiltin (lit "Object.prototype.toLocaleString")) ].

Fixpoint assoc {A : Type} (key : jsstring) (ps : list (jsstring * A)) : option A :=
  match ps with
  | [] => None
  | (k, v) :: rest => if jsstring_eqb k key then Some v else assoc key rest
  end.

(** [obj[key]] on an object literal with the given own string properties:
    the own property if there is one, else what [Object.prototype] has under
    that name, else [undefined]. *)
Definition get_property (own : list (jsstring * jsstring)) (key : jsstring)
  : js_value :=
  match assoc key own with
  | Some s => VString s
  | None =>
      match assoc key object_prototype with
      | Some v => v
      | None => VUndefined
      end
  end.

(** The property key of [themeContexts[theme]]: a string is its own key, a
    missing argument is the key ["undefined"]. *)
Definition property_key (theme : option jsstring) : jsstring :=
  match theme with
  | Some t => t
  | None => lit "undefined"
  end.

(** [themeContexts[theme] || themeContexts["moodverse"]]. *)
Definition buildPrompt (userInput : jsstring) (theme : option jsstring)
  : js_value :=
  let contexts := themeContexts userInput in
  let chosen := get_property contexts (property_key theme) in
  if truthy chosen then chosen else get_property contexts (lit "moodverse").

(** The keys the theme table recognises. *)
Definition recognized (theme : jsstring) : bool :=
  jsstring_eqb theme (lit "lovelines")
  || jsstring_eqb theme (lit "moodverse")
  || jsstring_eqb theme (lit "soulscript").

(** The names [Object.prototype] defines. *)
Definition inherited (theme : jsstring) : bool :=
  match assoc theme object_prototype with
  | Some _ => true
  | None => false
  end.

(** [needle] occurs in [hay] as a contiguous run. *)
Definition substring_of (needle hay : jsstring) : Prop :=
  exists before after, hay = before ++ needle ++ after.

(** [hay] ends with [suffix]. *)
Definition ends_with (suffix hay : jsstring) : Prop :=
  exists before, hay = before ++ suffix.

(** The text after the interpolated input, common to the three templates. *)
Definition instruction : jsstring := lit "Write the poem now:".

End Prompt.

Import Prompt.

(** ** HTTP Server *)

Module Server.

Local Open Scope Z_scope.

(** Parsed JSON, as [express.json()] hands a request body to the handler and
    as axios hands over the remote response.  Numbers are kept as integers:
    the code only tests them for truthiness. *)
#[local] Set Warnings "-register-all".

Inductive json :=
| JNull
| JBool (b : bool)
| JNumber (n : Z)
| JString (s : jsstring)
| JArray (items : list json)
| JObject (members : list (jsstring * json)).

(** A value read from parsed JSON; [None] is [undefined]. *)
Definition js := option json.

(** [ToBoolean]. *)
Definition to_boolean (v : js) : bool :=
  match v with
  | None | Some JNull => false
  | Some (JBool b) => b
  | Some (JNumber n) => negb (n =? 0)
  | Some (JString s) => negb (jsstring_eqb s [])
  | Some (JArray _) | Some (JObject _) => true
  end.

(** What an [Error] object carries as far as the handler looks: axios adds
    [response] when the remote answered with a failing status, and [code]
    (["ECONNABORTED"] for its timeout); a plain [Error] or [TypeError] has
    neither. *)
Record http_reply := { reply_status : Z; reply_data : json }.

Record js_error := {
  message : jsstring;
  response : option http_reply;
  code : option jsstring
}.

Definition plain_error (msg : string) : js_error :=
  {| message := lit msg; response := None; code := None |}.

(** The JSON documents and files the server sends. *)
Inductive payload :=
| GenerationResult (poem : jsstring) (theme : option jsstring) (timestamp : jsstring)
| ErrorResponse (error : jsstring) (retryAfter : option Z)
| HealthStatus (status message timestamp : jsstring)
| StaticFile (file : jsstring)
| NoContent
| FinalHandler.

Record http_response := { status : Z; body : payload }.

(** Effects besides the response: console output, and the outbound call.
    [PromptBuilt] is a ghost event marking the call of [buildPrompt]. *)
Inductive event :=
| ConsoleError (line : jsstring)
| PromptBuilt (prompt : js_value)
| AxiosPost (prompt : js_value).

Record world := { sent : list http_response; trace : list event }.

Definition start : world := {| sent := []; trace := [] |}.

(** Computations that send responses, leave a trace, and may throw. *)
Definition M (A : Type) : Type := world -> world * (js_error + A).

Definition ret {A : Type} (a : A) : M A := fun w => (w, inr a).

Definition bind {A B : Type} (m : M A) (k : A -> M B) : M B :=
  fun w =>
    match m w with
    | (w', inr a) => k a w'
    | (w', inl e) => (w', inl e)
    end.

Definition throw {A : Type} (e : js_error) : M A := fun w => (w, inl e).

Definition try_catch {A : Type} (m : M A) (handler : js_error -> M A) : M A :=
  fun w =>
    match m w with
    | (w', inr a) => (w', inr a)
    | (w', inl e) => handler e w'
    end.

Definition emit (e : event) : M unit :=
  fun w => ({| sent := sent w; trace := trace w ++ [e] |}, inr tt).

(** [res.status(code).json(body)], [res.json(body)], [res.sendFile(path)]. *)
Definition send (code : Z) (b : payload) : M unit :=
  fun w =>
    ({| sent := sent w ++ [{| status := code; body := b |}]; trace := trace w |},
     inr tt).

Declare Scope server_scope.
Delimit Scope server_scope with server.
Notation "x <- m ;; k" := (bind m (fun x => k))
  (at level 61, m at next level, right associativity) : server_scope.
Notation "m ;; k" := (bind m (fun _ => k))
  (at level 61, right associativity) : server_scope.
Local Open Scope server_scope.

(** *** Property reads on parsed JSON *)

(** The last member of that name, as [JSON.parse] keeps it. *)
Fixpoint member (name : jsstring) (ms : list (jsstring * json)) : js :=
  match ms with
  | [] => None
  | (k, v) :: rest =>
      match member name rest with
      | Some later => Some later
      | None => if jsstring_eqb k name then Some v else None
      end
  end.

(** [v.name], for the names [candidates], [content], [parts] and [text],
    none of which a built-in prototype defines: only an object can have
    them; reading a property of [undefined] or [null] throws. *)
Definition get_named (v : js) (name : string) : M js :=
  match v with
  | None | Some JNull =>
      throw (plain_error "Cannot read properties of undefined")
  | Some (JObject ms) => ret (member (lit name) ms)
  | Some _ => ret None
  end.

(** [v[0]]. *)
Definition get_first (v : js) : M js :=
  match v with
  | None | Some JNull =>
      throw (plain_error "Cannot read properties of undefined")
  | Some (JArray items) => ret (List.hd_error items)
  | Some (JString s) =>
      ret (match s with [] => None | c :: _ => Some (JString [c]) end)
  | Some (JObject ms) => ret (member (lit "0") ms)
  | Some _ => ret None
  end.

(** *** POST /api/generate-poem *)

(** What the process and the outside world give one request: the
    credential of [process.env], the outcome of the one [axios.post] (a
    rejection carries the error, a resolution [response.data]), and the
    clock read by [new Date().toISOString()]. *)
Record environment := {
  GEMINI_API_KEY : option jsstring;
  axios_post : js_value -> js_error + json;
  now : jsstring
}.

Record request_body := {
  userInput : js;
  theme : option jsstring
}.

(** [!GEMINI_API_KEY]. *)
Definition key_missing (env : environment) : bool :=
  match GEMINI_API_KEY env with
  | None => true
  | Some k => jsstring_eqb k []
  end.

(** The guard [!userInput || userInput.trim().length === 0].  A truthy
    value that is not a string has no [trim] method, and calling it throws.
    Past the guard [userInput] is a string. *)
Inductive validation := Rejected | Accepted (text : jsstring).

Definition validate (userInput : js) : M validation :=
  if negb (to_boolean userInput) then ret Rejected
  else match userInput with
       | Some (JString s) =>
           if (List.length (trim s) =? 0)%nat then ret Rejected
           else ret (Accepted s)
       | _ => throw (plain_error "userInput.trim is not a function")
       end.

(** The shape test on [response.data] and the read of the first text
    part. *)
Definition first_text (data : json) : M js :=
  let malformed := plain_error "Unexpected response format from Gemini API" in
  candidates <- get_named (Some data) "candidates" ;;
  if negb (to_boolean candidates) then throw malformed else
  candidate <- get_first candidates ;;
  if negb (to_boolean candidate) then throw malformed else
  content <- get_named candidate "content" ;;
  if negb (to_boolean content) then throw malformed else
  parts <- get_named content "parts" ;;
  if negb (to_boolean parts) then throw malformed else
  part <- get_first parts ;;
  if negb (to_boolean part) then throw malformed else
  get_named part "text".

(** [cleanPoem(generatedPoem)] on whatever the text part holds: only a
    string has [trim]. *)
Definition clean_text (text : js) : M jsstring :=
  match text with
  | Some (JString s) => ret (cleanPoem s)
  | None | Some JNull =>
      throw (plain_error "Cannot read properties of undefined (reading 'trim')")
  | Some _ => throw (plain_error "text.trim is not a function")
  end.

(** [await axios.post(...)]: one outbound call; a rejection is thrown. *)
Definition remote_call (env : environment) (prompt : js_value) : M json :=
  emit (AxiosPost prompt) ;;
  match axios_post env prompt with
  | inl e => throw e
  | inr data => ret data
  end.

Definition error_json (code : Z) (msg : string) (retry : option Z) : M unit :=
  send code (ErrorResponse (lit msg) retry).

(** The [catch] block. *)
Definition on_error (error : js_error) : M unit :=
  emit (ConsoleError (lit "Error generating poem:")) ;;
  match response error with
  | Some r =>
      let status := reply_status r in
      emit (ConsoleError (lit "Gemini API Error:")) ;;
      if status =? 400 then error_json 400 "Invalid request to AI service." None
      else if (status =? 401) || (status =? 403)
      then error_json 500 "Authentication failed." None
      else if status =? 429 then error_json 429 "Too many requests." (Some 10)
      else if status =? 503 then error_json 503 "Service unavailable." (Some 20)
      else error_json 500 "Failed to generate poem." None
  | None =>
      match code error with
      | Some c =>
          if jsstring_eqb c (lit "ECONNABORTED")
          then error_json 504 "Request timed out." None
          else error_json 500 "An unexpected error occurred." None
      | None => error_json 500 "An unexpected error occurred." None
      end
  end.

(** The [try] block. *)
Definition generate (env : environment) (req : request_body) : M unit :=
  checked <- validate (userInput req) ;;
  match checked with
  | Rejected =>
      error_json 400 "Please provide your feelings or thoughts to generate a poem." None
  | Accepted text =>
      if key_missing env then
        emit (ConsoleError (lit "ERROR: GEMINI_API_KEY not found in .env file!")) ;;
        error_json 500 "Server configuration error. Please contact support." None
      else
        let prompt := buildPrompt text (theme req) in
        emit (PromptBuilt prompt) ;;
        data <- remote_call env prompt ;;
        generatedPoem <- first_text data ;;
        generatedPoem <- clean_text generatedPoem ;;
        send 200 (GenerationResult generatedPoem (theme req) (now env))
  end.

Definition generate_poem (env : environment) (req : request_body) : M unit :=
  try_catch (generate env req) on_error.

(** *** The application: middleware and routes in registration order *)

Inductive http_method := GET | HEAD | POST | PUT | DELETE | PATCH | OPTIONS.

(** [body_error] is the status [express.json()] fails with when the
    request carries a body it cannot parse (400 for malformed JSON, 413 for
    one over the size limit); [req_body] is the parsed body otherwise. *)
Record request := {
  method : http_method;
  path : jsstring;
  body_error : option Z;
  req_body : request_body
}.

(** A layer answers a request or passes it on ([None]). *)
Definition layer := request -> option (M unit).

Definition reads (m : http_method) : bool :=
  match m with GET | HEAD => true | _ => false end.

(** A route path matches as Express compiles it by default: letter case
    is ignored and one trailing slash is allowed. *)
Fixpoint eq_ci (a b : jsstring) : bool :=
  match a, b with
  | [], [] => true
  | x :: a', y :: b' => (canonicalize x =? canonicalize y)%N && eq_ci a' b'
  | _, _ => false
  end.

Definition route_matches (route : string) (p : jsstring) : bool :=
  eq_ci (lit route) p || eq_ci (lit route ++ lit "/") p.

(** [cors()]: answers a preflight itself, else passes on. *)
Definition cors_layer : layer :=
  fun req =>
    match method req with
    | OPTIONS => Some (send 204 NoContent)
    | _ => None
    end.

(** [express.json()]: a body that parses reaches the handlers parsed.  One
    that does not is passed to [next(err)]; no error middleware is
    registered, so the remaining layers are skipped and Express's own final
    handler replies with the error's status and its error page. *)
Definition json_layer : layer :=
  fun req =>
    match body_error req with
    | Some code => Some (send code FinalHandler)
    | None => None
    end.

(** [express.static(public)]: [public] tells which file, if any, a path
    names in the directory. *)
Definition static_layer (public : jsstring -> option jsstring) : layer :=
  fun req =>
    if reads (method req) then
      match public (path req) with
      | Some file => Some (send 200 (StaticFile file))
      | None => None
      end
    else None.

(** [app.get("/api/health", ...)]. *)
Definition health_route (env : environment) : layer :=
  fun req =>
    if reads (method req) && route_matches "/api/health" (path req) then
      Some (send 200 (HealthStatus (lit "ok")
              (lit "MuseMind backend is running with Gemini API!") (now env)))
    else None.

(** [app.post("/api/generate-poem", ...)]. *)
Definition generate_poem_route (env : environment) : layer :=
  fun req =>
    match method req with
    | POST =>
        if route_matches "/api/generate-poem" (path req)
        then Some (generate_poem env (req_body req))
        else None
    | _ => None
    end.

(** [app.use((req, res) => res.status(404).json(...))]: mounted without a
    path, it answers every request that reaches it. *)
Definition not_found_layer : layer :=
  fun _ => Some (error_json 404 "Endpoint not found. Use POST /api/generate-poem." None).

(** [app.get("*", ...)]: the single-page-app fallback. *)
Definition spa_fallback : layer :=
  fun req =>
    if reads (method req) then Some (send 200 (StaticFile (lit "public/index.html")))
    else None.

Definition app (public : jsstring -> option jsstring) (env : environment)
  : list layer :=
  [ cors_layer; json_layer; static_layer public; health_route env;
    generate_poem_route env; not_found_layer; spa_fallback ].

(** The router: the first layer that answers; past the last one Express's
    own final handler replies 404. *)
Fixpoint dispatch (stack : list layer) (req : request) : M unit :=
  match stack with
  | [] => send 404 FinalHandler
  | l :: rest =>
      match l req with
      | Some answer => answer
      | None => dispatch rest req
      end
  end.

(** The responses a request gets from the application. *)
Definition serve (public : jsstring -> option jsstring) (env : environment)
    (req : request) : list http_response :=
  sent (fst (dispatch (app public env) req start)).

(** The responses and trace of one generation request. *)
Definition run_generate_poem (env : environment) (req : request_body) : world :=
  fst (generate_poem env req start).

(** *** The error table of the specification *)

(** How a remote failure is classified, in the words of the specification:
    by HTTP status when there is one, else timeout or unknown. *)
Inductive remote_failure :=
| HttpStatus (s : Z)
| Timeout
| NoStatus.

(** The status and retry hint the specification prescribes. *)
Definition spec_error_status (f : remote_failure) : Z * option Z :=
  match f with
  | HttpStatus 400 => (400, None)
  | HttpStatus 401 => (500, None)
  | HttpStatus 403 => (500, None)
  | HttpStatus 429 => (429, Some 10)
  | HttpStatus 503 => (503, Some 20)
  | HttpStatus _ => (500, None)
  | Timeout => (504, None)
  | NoStatus => (500, None)
  end.

(** The classification of what axios throws: an error with [response]
    has an HTTP status; without one, the code ["ECONNABORTED"] is axios's
    timeout. *)
Definition classify (e : js_error) : remote_failure :=
  match response e with
  | Some r => HttpStatus (reply_status r)
  | None =>
      match code e with
      | Some c => if jsstring_eqb c (lit "ECONNABORTED") then Timeout else NoStatus
      | None => NoStatus
      end
  end.

(** *** Shapes of replies and of computations *)

(** The success payload of a generation request. *)
Definition success_reply (env : environment) (req : request_body)
    (r : http_response) : Prop :=
  exists poem,
    r = {| status := 200;
           body := GenerationResult poem (theme req) (now env) |}.

(** An error payload under one of the failure statuses. *)
Definition error_reply (r : http_response) : Prop :=
  exists msg retry,
    body r = ErrorResponse msg retry /\ In (status r) [400; 429; 500; 503; 504].

(** A computation that sends nothing. *)
Definition silent {A : Type} (m : M A) : Prop :=
  forall w, sent (fst (m w)) = sent w.

(** A computation that either returns having sent exactly one response,
    which satisfies [P], or throws having sent none. *)
Definition one_or_throw (P : http_response -> Prop) (m : M unit) : Prop :=
  forall w,
    match m w with
    | (w', inr _) => exists r, sent w' = sent w ++ [r] /\ P r
    | (w', inl _) => sent w' = sent w
    end.

(** A computation that returns having sent exactly one response. *)
Definition always_one (P : http_response -> Prop) (m : M unit) : Prop :=
  forall w,
    exists w' r, m w = (w', inr tt) /\ sent w' = sent w ++ [r] /\ P r.

(** A request whose [userInput] is absent, empty or only white space. *)
Definition blank_input (v : js) : Prop :=
  v = None \/ exists s, v = Some (JString s) /\ trim s = [].

(** *** Sample requests and environments *)

(** A remote reply of the expected shape around one text part. *)
Definition candidates_reply (text : jsstring) : json :=
  JObject
    [ (lit "candidates",
       JArray
         [ JObject
             [ (lit "content",
                JObject
                  [ (lit "parts", JArray [ JObject [ (lit "text", JString text) ] ]) ]) ] ]) ].

(** The credential is set and the remote service answers with a poem. *)
Definition answering_env : environment :=
  {| GEMINI_API_KEY := Some (lit "secret");
     axios_post := fun _ => inr (candidates_reply sample_poem);
     now := lit "2025-01-01T00:00:00.000Z" |}.

(** The credential is set and the remote service answers 429. *)
Definition throttled_env : environment :=
  {| GEMINI_API_KEY := Some (lit "secret");
     axios_post := fun _ =>
       inl {| message := lit "Request failed with status code 429";
              response := Some {| reply_status := 429; reply_data := JNull |};
              code := Some (lit "ERR_BAD_REQUEST") |};
     now := lit "2025-01-01T00:00:00.000Z" |}.

(** No credential is configured. *)
Definition unconfigured_env : environment :=
  {| GEMINI_API_KEY := None;
     axios_post := fun _ => inr JNull;
     now := lit "2025-01-01T00:00:00.000Z" |}.

(** A request with an unrecognised theme. *)
Definition sunset_request : request_body :=
  {| userInput := Some (JString (lit "evening by the sea"));
     theme := Some (lit "sunset") |}.

(** A request whose input is only white space. *)
Definition blank_request : request_body :=
  {| userInput := Some (JString (lit "   ")); theme := Some (lit "lovelines") |}.

(** A page of the single-page frontend that is no file of [public]. *)
Definition dashboard_request : request :=
  {| method := GET;
     path := lit "/dashboard";
     body_error := None;
     req_body := {| userInput := None; theme := None |} |}.

(** The reply of the catch-all 404 middleware. *)
Definition not_found_reply : http_response :=
  {| status := 404;
     body := ErrorResponse (lit "Endpoint not found. Use POST /api/generate-poem.") None |}.

(** The reply to a request that fails validation. *)
Definition validation_reply : http_response :=
  {| status := 400;
     body := ErrorResponse
               (lit "Please provide your feelings or thoughts to generate a poem.")
               None |}.

(** *** Notions for the handler's runs *)

(** A computation that leaves the world alone: its result does not depend
    on the world either. *)
Definition stateless {A : Type} (m : M A) : Prop :=
  forall w, m w = (w, snd (m start)).

(** An error as [new Error(...)] or a [TypeError] makes it: it carries no
    [response] and no [code]. *)
Definition plain (e : js_error) : Prop :=
  response e = None /\ code e = None.

(** A computation whose only throws are plain errors. *)
Definition throws_plain {A : Type} (m : M A) : Prop :=
  forall e, snd (m start) = inl e -> plain e.

(** The outbound calls of a trace. *)
Definition is_post (e : event) : bool :=
  match e with
  | AxiosPost _ => true
  | _ => false
  end.

Definition posts (tr : list event) : list event := List.filter is_post tr.

(** The replies of the error branches, as the source writes them. *)
Definition configuration_reply : http_response :=
  {| status := 500;
     body := ErrorResponse
               (lit "Server configuration error. Please contact support.") None |}.

Definition unexpected_reply : http_response :=
  {| status := 500;
     body := ErrorResponse (lit "An unexpected error occurred.") None |}.

Definition error_table : list http_response :=
  [ validation_reply;
    configuration_reply;
    {| status := 400;
       body := ErrorResponse (lit "Invalid request to AI service.") None |};
    {| status := 500; body := ErrorResponse (lit "Authentication failed.") None |};
    {| status := 429;
       body := ErrorResponse (lit "Too many requests.") (Some 10) |};
    {| status := 503;
       body := ErrorResponse (lit "Service unavailable.") (Some 20) |};
    {| status := 500;
       body := ErrorResponse (lit "Failed to generate poem.") None |};
    {| status := 504; body := ErrorResponse (lit "Request timed out.") None |};
    unexpected_reply ].

(** The console lines of the error branches. *)
Definition log_failure : event := ConsoleError (lit "Error generating poem:").
Definition log_remote : event := ConsoleError (lit "Gemini API Error:").
Definition log_no_key : event :=
  ConsoleError (lit "ERROR: GEMINI_API_KEY not found in .env file!").

(** The reply of the health check. *)
Definition health_reply (env : environment) : http_response :=
  {| status := 200;
     body := HealthStatus (lit "ok")
               (lit "MuseMind backend is running with Gemini API!") (now env) |}.

(** The application without the layer registered last. *)
Definition app_without_fallback (public : jsstring -> option jsstring)
    (env : environment) : list layer :=
  [ cors_layer; json_layer; static_layer public; health_route env;
    generate_poem_route env; not_found_layer ].


(** The remote service answers with no candidates. *)
Definition empty_answer_env : environment :=
  {| GEMINI_API_KEY := Some (lit "secret");
     axios_post := fun _ => inr (JObject [ (lit "candidates", JArray []) ]);
     now := lit "2025-01-01T00:00:00.000Z" |}.

End Server.

Import Server.
(** ** Facts about the string primitives *)

Section StringFacts.

Local Open Scope N_scope.

Lemma LF_is_white_space : is_white_space LF = true.
Proof. reflexivity. Qed.

Lemma STAR_not_LF : STAR <> LF.
Proof. discriminate. Qed.

(** *** Every primitive returns code units of its argument *)

Lemma trimStart_incl (s : jsstring) : incl (trimStart s) s.
Proof.
  induction s as [|c r IH]; simpl.
  - apply incl_refl.
  - destruct (is_white_space c).
    + now apply incl_tl.
    + apply incl_refl.
Qed.

Lemma trimEnd_incl (s : jsstring) : incl (trimEnd s) s.
Proof.
  induction s as [|c r IH]; simpl.
  - apply incl_refl.
  - destruct (trimEnd r) as [|d t] eqn:E.
    + destruct (is_white_space c).
      * apply incl_nil_l.
      * intros x [->|[]]. now left.
    + intros x [->|Hx]; [now left | right; now apply IH].
Qed.

Lemma trim_incl (s : jsstring) : incl (trim s) s.
Proof.
  unfold trim. eapply incl_tran; [apply trimEnd_incl | apply trimStart_incl].
Qed.

Lemma match_ci_incl (pat s r : jsstring) :
  match_ci pat s = Some r -> incl r s.
Proof.
  revert s; induction pat as [|p pat IH]; intros s; simpl.
  - intros [= ->]. apply incl_refl.
  - destruct s as [|c s']; [discriminate|].
    destruct (canonicalize c =? canonicalize p); [|discriminate].
    intros H. apply incl_tl. now apply IH.
Qed.

Lemma match_alt_incl (p1 p2 s r : jsstring) :
  match_alt p1 p2 s = Some r -> incl r s.
Proof.
  unfold match_alt. destruct (match_ci p1 s) eqn:E.
  - intros [= <-]. eapply match_ci_incl; eauto.
  - apply match_ci_incl.
Qed.

Lemma lazy_dots_then_incl (stop : code_unit) (s r : jsstring) :
  lazy_dots_then stop s = Some r -> incl r s.
Proof.
  induction s as [|c s' IH]; simpl; [discriminate|].
  destruct (c =? stop).
  - intros [= ->]. apply incl_tl, incl_refl.
  - destruct (is_line_terminator c); [discriminate|].
    intros H. now apply incl_tl, IH.
Qed.

Lemma split_lines_nonempty (s : jsstring) : split_lines s <> [].
Proof.
  induction s as [|c r IH]; simpl; [discriminate|].
  destruct (c =? LF); [discriminate|].
  destruct (split_lines r); discriminate.
Qed.

Lemma split_lines_incl (s l : jsstring) :
  In l (split_lines s) -> incl l s.
Proof.
  revert l; induction s as [|c r IH]; intros l; simpl.
  - intros [<-|[]]. apply incl_refl.
  - destruct (c =? LF).
    + intros [<-|H]; [apply incl_nil_l | now apply incl_tl, IH].
    + destruct (split_lines r) as [|l0 ls]; simpl.
      * intros [<-|[]]. intros x [->|[]]. now left.
      * intros [<-|H].
        -- intros x [->|Hx]; [now left|right]. apply (IH l0); [now left|assumption].
        -- apply incl_tl, IH. now right.
Qed.

Lemma split_lines_no_LF (s l : jsstring) :
  In l (split_lines s) -> ~ In LF l.
Proof.
  revert l; induction s as [|c r IH]; intros l; simpl.
  - intros [<-|[]] [].
  - destruct (N.eqb_spec c LF) as [->|Hc].
    + intros [<-|H]; [intros [] | now apply IH].
    + destruct (split_lines r) as [|l0 ls]; simpl.
      * intros [<-|[]] [H|[]]. now apply Hc.
      * intros [<-|H].
        -- intros [H|H]; [now apply Hc|]. apply (IH l0); [now left|assumption].
        -- apply IH. now right.
Qed.

Lemma join_lines_cons (l : jsstring) (ls : list jsstring) :
  ls <> [] -> join_lines (l :: ls) = l ++ LF :: join_lines ls.
Proof. destruct ls; [congruence | reflexivity]. Qed.

Lemma join_lines_In (c : code_unit) (ls : list jsstring) :
  In c (join_lines ls) -> c = LF \/ exists l, In l ls /\ In c l.
Proof.
  induction ls as [|l rest IH]; [intros []|].
  destruct rest as [|l' rest'].
  - simpl. intros H. right. exists l. split; [now left|assumption].
  - rewrite join_lines_cons by discriminate.
    intros H. apply in_app_or in H. destruct H as [H|[H|H]].
    + right. exists l. split; [now left|assumption].
    + now left.
    + destruct (IH H) as [->|(l1 & H1 & H2)]; [now left|].
      right. exists l1. split; [now right|assumption].
Qed.

(** *** [trimEnd] mirrors [trimStart] *)

Lemma trimStart_snoc (a : jsstring) (c : code_unit) :
  trimStart (a ++ [c])
  = match trimStart a with
    | [] => if is_white_space c then [] else [c]
    | t => t ++ [c]
    end.
Proof.
  induction a as [|d a IH]; [reflexivity|].
  simpl. destruct (is_white_space d); [exact IH | reflexivity].
Qed.

Lemma trimEnd_rev (s : jsstring) : trimEnd s = rev (trimStart (rev s)).
Proof.
  induction s as [|c r IH]; [reflexivity|].
  simpl rev. rewrite trimStart_snoc. simpl trimEnd. rewrite IH.
  destruct (trimStart (rev r)) as [|d t].
  - simpl. destruct (is_white_space c); reflexivity.
  - rewrite rev_app_distr. simpl rev at 2. simpl app.
    destruct (rev (d :: t)) eqn:E; [|reflexivity].
    apply (f_equal (@List.length _)) in E. rewrite length_rev in E.
    discriminate E.
Qed.

End StringFacts.

(** *** Counting lines *)

Section LineCount.

Local Open Scope nat_scope.

Lemma split_lines_length (s : jsstring) :
  List.length (split_lines s) = S (nl_count s).
Proof.
  unfold nl_count. induction s as [|c r IH]; [reflexivity|].
  simpl split_lines. destruct (N.eqb_spec c LF) as [->|Hc].
  - rewrite count_occ_cons_eq by reflexivity. simpl. now rewrite IH.
  - rewrite count_occ_cons_neq by assumption.
    pose proof (split_lines_nonempty r) as Hne.
    destruct (split_lines r) as [|l0 ls]; [congruence|].
    simpl in *. assumption.
Qed.

Lemma nl_count_app (a b : jsstring) :
  nl_count (a ++ b) = nl_count a + nl_count b.
Proof. apply count_occ_app. Qed.

Lemma nl_count_trimStart (s : jsstring) : nl_count (trimStart s) <= nl_count s.
Proof.
  unfold nl_count. induction s as [|c r IH]; simpl trimStart; [lia|].
  destruct (is_white_space c); [|lia].
  simpl. destruct (N.eq_dec c LF); lia.
Qed.

Lemma nl_count_trimEnd (s : jsstring) : nl_count (trimEnd s) <= nl_count s.
Proof.
  unfold nl_count. induction s as [|c r IH]; simpl trimEnd; [lia|].
  destruct (trimEnd r) as [|d t].
  - destruct (is_white_space c) eqn:W.
    + simpl. lia.
    + simpl. destruct (N.eq_dec c LF); lia.
  - simpl in *. destruct (N.eq_dec c LF); lia.
Qed.

Lemma nl_count_trim (s : jsstring) : nl_count (trim s) <= nl_count s.
Proof.
  unfold trim. etransitivity; [apply nl_count_trimEnd | apply nl_count_trimStart].
Qed.

Lemma nl_count_join_lines (ls : list jsstring) :
  Forall (fun l => ~ In LF l) ls ->
  nl_count (join_lines ls) = pred (List.length ls).
Proof.
  induction 1 as [|l rest Hl Hrest IH]; [reflexivity|].
  destruct rest as [|l' rest'].
  - simpl. unfold nl_count. now apply count_occ_not_In.
  - rewrite join_lines_cons by discriminate.
    rewrite nl_count_app. change (LF :: join_lines (l' :: rest'))
      with ([LF] ++ join_lines (l' :: rest')).
    rewrite nl_count_app, IH.
    assert (nl_count l = 0) as -> by (unfold nl_count; now apply count_occ_not_In).
    simpl. reflexivity.
Qed.

Lemma keep_five_length (ls : list jsstring) : List.length (keep_five ls) <= 5.
Proof.
  unfold keep_five. destruct (Nat.ltb_spec 5 (List.length ls)).
  - rewrite length_firstn. lia.
  - assumption.
Qed.

Lemma keep_five_incl (ls : list jsstring) : incl (keep_five ls) ls.
Proof.
  unfold keep_five. destruct (5 <? List.length ls).
  - intros l Hl. rewrite <- (firstn_skipn 5 ls). apply in_or_app. now left.
  - apply incl_refl.
Qed.

End LineCount.

(** ** The Response Cleaner *)

Section CleanerFacts.

Local Open Scope nat_scope.

Lemma remove_star_no_star (s : jsstring) : ~ In STAR (remove_star s).
Proof.
  unfold remove_star. intros H. apply filter_In in H. destruct H as [_ H].
  now rewrite N.eqb_refl in H.
Qed.

Lemma match_here_incl (s r : jsstring) : match_here s = Some r -> incl r s.
Proof.
  unfold match_here.
  destruct (match_alt _ _ s) as [a|] eqn:Ea; [|discriminate].
  destruct (lazy_dots_then COLON a) as [b|] eqn:Eb; [|discriminate].
  intros [= <-].
  eapply incl_tran; [apply trimStart_incl|].
  eapply incl_tran; [eapply lazy_dots_then_incl; eassumption|].
  eapply match_alt_incl; eassumption.
Qed.

Lemma match_title_incl (s r : jsstring) : match_title s = Some r -> incl r s.
Proof.
  unfold match_title.
  destruct (match_alt _ _ s) as [a|] eqn:Ea; [|discriminate].
  destruct (match_ci [COLON] a) as [b|] eqn:Eb; [|discriminate].
  intros H.
  eapply incl_tran; [eapply lazy_dots_then_incl; eassumption|].
  eapply incl_tran; [eapply match_ci_incl; eassumption|].
  eapply match_alt_incl; eassumption.
Qed.

Lemma replace_here_incl (s : jsstring) : incl (replace_here s) s.
Proof.
  unfold replace_here. destruct (match_here s) eqn:E.
  - now apply match_here_incl.
  - apply incl_refl.
Qed.

Lemma replace_title_incl (s : jsstring) : incl (replace_title s) s.
Proof.
  unfold replace_title. destruct (match_title s) eqn:E.
  - now apply match_title_incl.
  - apply incl_refl.
Qed.

Lemma cleanPoem_unfold (text : jsstring) :
  cleanPoem text = trim (join_lines (kept_lines text)).
Proof. reflexivity. Qed.

Lemma kept_lines_length (text : jsstring) : List.length (kept_lines text) <= 5.
Proof. apply keep_five_length. Qed.

Lemma kept_lines_spec (text l : jsstring) :
  In l (kept_lines text) ->
  non_blank l = true /\ ~ In LF l /\ ~ In STAR l.
Proof.
  unfold kept_lines. intros H. apply keep_five_incl in H.
  apply filter_In in H. destruct H as [H Hnb].
  split; [assumption|]. split.
  - eapply split_lines_no_LF; eassumption.
  - intros Hs. apply split_lines_incl in H. apply H in Hs.
    apply replace_title_incl, replace_here_incl in Hs.
    now apply remove_star_no_star in Hs.
Qed.

Lemma cleanPoem_no_star (text : jsstring) : ~ In STAR (cleanPoem text).
Proof.
  rewrite cleanPoem_unfold. intros H. apply trim_incl in H.
  apply join_lines_In in H. destruct H as [H|(l & Hl & Hc)].
  - now apply STAR_not_LF.
  - apply kept_lines_spec in Hl. now apply Hl.
Qed.

Lemma cleanPoem_nl_count (text : jsstring) : nl_count (cleanPoem text) <= 4.
Proof.
  rewrite cleanPoem_unfold.
  etransitivity; [apply nl_count_trim|].
  rewrite nl_count_join_lines.
  - pose proof (kept_lines_length text). lia.
  - apply Forall_forall. intros l Hl. now apply kept_lines_spec in Hl.
Qed.

(** C6: the output of [cleanPoem] holds no asterisk and, split on
    newline, has at most five lines. *)
Theorem cleanPoem_no_asterisk_at_most_five_lines (text : jsstring) :
  ~ In STAR (cleanPoem text)
  /\ List.length (split_lines (cleanPoem text)) <= 5.
Proof.
  split.
  - apply cleanPoem_no_star.
  - rewrite split_lines_length. pose proof (cleanPoem_nl_count text). lia.
Qed.

(** Seven non-blank lines with two blank ones between them: the first
    five non-blank lines come back, joined by newlines. *)
Example cleanPoem_first_five_lines :
  cleanPoem
    (lit "one" ++ LF :: lit "two" ++ LF :: LF :: lit "three" ++ LF
       :: lit "four" ++ LF :: lit "  " ++ LF :: lit "five" ++ LF
       :: lit "six" ++ LF :: lit "seven")
  = lit "one" ++ LF :: lit "two" ++ LF :: lit "three" ++ LF
      :: lit "four" ++ LF :: lit "five".
Proof. vm_compute. reflexivity. Qed.

(** Emphasis markers, an introductory clause and a leading title line go. *)
Example cleanPoem_strips_preamble :
  cleanPoem
    (lit "  HERE IS your poem: " ++ LF :: lit "poem: Dawn" ++ LF
       :: lit "**Light** on the *hills*  ")
  = lit "Light on the hills".
Proof. vm_compute. reflexivity. Qed.

End CleanerFacts.

(** *** Cleaning an already cleaned text *)

Section CleanTwice.

Local Open Scope nat_scope.

Lemma non_blank_nil : non_blank [] = false.
Proof. reflexivity. Qed.

Lemma non_blank_cons (c : code_unit) (l : jsstring) :
  non_blank (c :: l) = negb (is_white_space c) || non_blank l.
Proof.
  unfold non_blank, trim. simpl trimStart.
  destruct (is_white_space c) eqn:W; simpl negb; simpl orb; [reflexivity|].
  simpl trimEnd. destruct (trimEnd l); [rewrite W|]; reflexivity.
Qed.

Lemma split_lines_LF (r : jsstring) :
  split_lines (LF :: r) = [] :: split_lines r.
Proof. reflexivity. Qed.

Lemma split_lines_other (c : code_unit) (r : jsstring) :
  c <> LF ->
  split_lines (c :: r) = (c :: hd [] (split_lines r)) :: tl (split_lines r).
Proof.
  intros Hc. simpl. destruct (N.eqb_spec c LF) as [?|_]; [contradiction|].
  pose proof (split_lines_nonempty r).
  destruct (split_lines r); [congruence | reflexivity].
Qed.

Lemma split_lines_hd_tl (s : jsstring) :
  split_lines s = hd [] (split_lines s) :: tl (split_lines s).
Proof.
  pose proof (split_lines_nonempty s).
  destruct (split_lines s); [congruence | reflexivity].
Qed.

Lemma trimStart_head (s : jsstring) (c : code_unit) (r : jsstring) :
  trimStart s = c :: r -> is_white_space c = false.
Proof.
  induction s as [|d s' IH]; simpl; [discriminate|].
  destruct (is_white_space d) eqn:W; [assumption|].
  now intros [= <- _].
Qed.

Lemma trimEnd_fixed (s : jsstring) : trimEnd (trimEnd s) = trimEnd s.
Proof.
  induction s as [|c r IH]; [reflexivity|].
  simpl. destruct (trimEnd r) as [|d t] eqn:E.
  - destruct (is_white_space c) eqn:W; [reflexivity|].
    simpl. now rewrite W.
  - change (trimEnd (c :: d :: t))
      with (match trimEnd (d :: t) with
            | [] => if is_white_space c then [] else [c]
            | x => c :: x
            end).
    now rewrite IH.
Qed.

Lemma trimStart_trimEnd_headed (c : code_unit) (r : jsstring) :
  is_white_space c = false ->
  trimStart (trimEnd (c :: r)) = trimEnd (c :: r).
Proof.
  intros W. simpl trimEnd.
  destruct (trimEnd r); rewrite ?W; simpl; rewrite W; reflexivity.
Qed.

Lemma trim_fixed (s : jsstring) : trim (trim s) = trim s.
Proof.
  unfold trim. destruct (trimStart s) as [|c r] eqn:E; [reflexivity|].
  apply trimStart_head in E.
  rewrite trimStart_trimEnd_headed by assumption.
  apply trimEnd_fixed.
Qed.

(** Trimming keeps every line non-blank. *)

Lemma all_lines_non_blank_trimStart (s : jsstring) :
  all_lines_non_blank s -> all_lines_non_blank (trimStart s).
Proof.
  unfold all_lines_non_blank.
  induction s as [|c r IH]; [trivial|].
  simpl trimStart. destruct (is_white_space c) eqn:W; [|trivial].
  destruct (N.eq_dec c LF) as [->|Hc].
  - rewrite split_lines_LF. intros H. inversion H; discriminate.
  - rewrite (split_lines_other c r Hc). intros H. apply IH.
    rewrite split_lines_hd_tl. inversion H as [|? ? H1 H2]; subst.
    constructor; [|assumption].
    rewrite non_blank_cons, W in H1. exact H1.
Qed.

Lemma trimEnd_cases (c : code_unit) (r : jsstring) :
  (trimEnd r = [] /\ trimEnd (c :: r) = if is_white_space c then [] else [c])
  \/ (trimEnd r <> [] /\ trimEnd (c :: r) = c :: trimEnd r).
Proof.
  simpl. destruct (trimEnd r); [left | right]; split;
    reflexivity || discriminate.
Qed.

Lemma trimEnd_lines (s : jsstring) :
  Forall (fun l => non_blank l = true) (tl (split_lines s)) ->
  Forall (fun l => non_blank l = true) (tl (split_lines (trimEnd s)))
  /\ non_blank (hd [] (split_lines (trimEnd s)))
     = non_blank (hd [] (split_lines s)).
Proof.
  induction s as [|c r IH]; [intros _; split; [constructor | reflexivity]|].
  destruct (N.eq_dec c LF) as [->|Hc].
  - rewrite split_lines_LF. cbn [tl hd]. intros H.
    rewrite split_lines_hd_tl in H. inversion H as [|? ? H1 H2]; subst.
    destruct (IH H2) as [IH1 IH2]. rewrite H1 in IH2.
    destruct (trimEnd_cases LF r) as [[E _]|[_ ->]].
    + rewrite E in IH2. discriminate.
    + rewrite split_lines_LF. cbn [tl hd]. split; [|reflexivity].
      rewrite split_lines_hd_tl. constructor; assumption.
  - rewrite (split_lines_other c r Hc). cbn [tl hd]. intros H.
    destruct (IH H) as [IH1 IH2].
    destruct (trimEnd_cases c r) as [[E ->]|[_ ->]].
    + rewrite E in IH2. simpl in IH2. destruct (is_white_space c) eqn:W.
      * split; [constructor|]. cbn [hd].
        rewrite non_blank_cons, W, <- IH2. reflexivity.
      * rewrite (split_lines_other c [] Hc). simpl. split; [constructor|].
        rewrite !non_blank_cons, W. reflexivity.
    + rewrite (split_lines_other c (trimEnd r) Hc). cbn [tl hd].
      split; [assumption|].
      rewrite !non_blank_cons, IH2. reflexivity.
Qed.

Lemma all_lines_non_blank_trimEnd (s : jsstring) :
  all_lines_non_blank s -> all_lines_non_blank (trimEnd s).
Proof.
  unfold all_lines_non_blank. rewrite (split_lines_hd_tl s).
  intros H. inversion H as [|? ? H1 H2]; subst.
  destruct (trimEnd_lines s H2) as [T1 T2].
  rewrite (split_lines_hd_tl (trimEnd s)). constructor; [|assumption].
  now rewrite T2.
Qed.

Lemma all_lines_non_blank_trim (s : jsstring) :
  all_lines_non_blank s -> all_lines_non_blank (trim s).
Proof.
  intros H. unfold trim.
  now apply all_lines_non_blank_trimEnd, all_lines_non_blank_trimStart.
Qed.

(** [split] and [join] undo each other. *)

Lemma join_split_lines (s : jsstring) : join_lines (split_lines s) = s.
Proof.
  induction s as [|c r IH]; [reflexivity|].
  destruct (N.eq_dec c LF) as [->|Hc].
  - rewrite split_lines_LF, join_lines_cons by apply split_lines_nonempty.
    now rewrite IH.
  - rewrite (split_lines_other c r Hc).
    rewrite (split_lines_hd_tl r) in IH.
    destruct (tl (split_lines r)) as [|l ls].
    + simpl in *. now rewrite IH.
    + rewrite join_lines_cons in IH by discriminate.
      rewrite join_lines_cons by discriminate.
      rewrite <- app_comm_cons. now rewrite IH.
Qed.

Lemma split_lines_line_then (l t : jsstring) :
  ~ In LF l -> split_lines (l ++ LF :: t) = l :: split_lines t.
Proof.
  induction l as [|c l IH]; intros H; [reflexivity|].
  assert (c <> LF) as Hc by (intros ->; apply H; now left).
  rewrite <- app_comm_cons, split_lines_other by assumption.
  rewrite IH by (intros Hin; apply H; now right). reflexivity.
Qed.

Lemma split_lines_single (l : jsstring) : ~ In LF l -> split_lines l = [l].
Proof.
  induction l as [|c l IH]; intros H; [reflexivity|].
  assert (c <> LF) as Hc by (intros ->; apply H; now left).
  rewrite split_lines_other by assumption.
  rewrite IH by (intros Hin; apply H; now right). reflexivity.
Qed.

Lemma split_join_lines (ls : list jsstring) :
  Forall (fun l => ~ In LF l) ls -> ls <> [] ->
  split_lines (join_lines ls) = ls.
Proof.
  induction 1 as [|l rest Hl Hrest IH];
    [intros H; exfalso; apply H; reflexivity|].
  intros _. destruct rest as [|l' rest'].
  - now apply split_lines_single.
  - rewrite join_lines_cons by discriminate.
    rewrite split_lines_line_then by assumption.
    rewrite IH by discriminate. reflexivity.
Qed.

(** Without asterisks the two asterisk replacements change nothing. *)

Lemma remove_double_star_id (s : jsstring) :
  ~ In STAR s -> remove_double_star s = s.
Proof.
  induction s as [|c r IH]; intros H; [reflexivity|].
  assert (c <> STAR) as Hc by (intros ->; apply H; now left).
  assert (~ In STAR r) as Hr by (intros Hin; apply H; now right).
  simpl. destruct r as [|d r']; [reflexivity|].
  destruct (N.eqb_spec c STAR) as [?|_]; [contradiction|].
  simpl andb. cbv iota. f_equal. now apply IH.
Qed.

Lemma remove_star_id (s : jsstring) : ~ In STAR s -> remove_star s = s.
Proof.
  unfold remove_star. induction s as [|c r IH]; intros H; [reflexivity|].
  simpl. destruct (N.eqb_spec c STAR) as [->|_].
  - exfalso. apply H. now left.
  - simpl. f_equal. apply IH. intros Hin. apply H. now right.
Qed.

Lemma filter_all {A : Type} (f : A -> bool) (l : list A) :
  Forall (fun x => f x = true) l -> List.filter f l = l.
Proof.
  induction 1 as [|x l Hx Hl IH]; [reflexivity|].
  simpl. now rewrite Hx, IH.
Qed.

Lemma keep_five_short (ls : list jsstring) :
  List.length ls <= 5 -> keep_five ls = ls.
Proof.
  unfold keep_five. intros H.
  destruct (Nat.ltb_spec 5 (List.length ls)); [lia | reflexivity].
Qed.

(** The output of [cleanPoem] is empty, or every one of its lines is
    non-blank. *)
Lemma cleanPoem_lines (text : jsstring) :
  cleanPoem text = [] \/ all_lines_non_blank (cleanPoem text).
Proof.
  rewrite cleanPoem_unfold.
  destruct (kept_lines text) as [|l ls] eqn:E; [now left|].
  right. apply all_lines_non_blank_trim. unfold all_lines_non_blank.
  rewrite split_join_lines.
  - apply Forall_forall. intros x Hx. rewrite <- E in Hx.
    now apply kept_lines_spec in Hx.
  - apply Forall_forall. intros x Hx. rewrite <- E in Hx.
    now apply kept_lines_spec in Hx.
  - discriminate.
Qed.

Lemma cleanPoem_trimmed (text : jsstring) :
  trim (cleanPoem text) = cleanPoem text.
Proof. rewrite cleanPoem_unfold. apply trim_fixed. Qed.

(** C2, as the code has it: cleaning a cleaned text changes nothing
    provided the cleaned text does not itself open with an introductory
    clause or a title line, which one pass removes once only. *)
Theorem cleanPoem_idempotent_without_preamble (x : jsstring) :
  match_here (cleanPoem x) = None ->
  match_title (cleanPoem x) = None ->
  cleanPoem (cleanPoem x) = cleanPoem x.
Proof.
  intros Hhere Htitle.
  destruct (cleanPoem_lines x) as [E|Hlines]; [now rewrite E|].
  pose proof (cleanPoem_no_star x) as Hstar.
  pose proof (cleanPoem_nl_count x) as Hnl.
  pose proof (cleanPoem_trimmed x) as Htrim.
  generalize dependent (cleanPoem x). intros y Hhere Htitle Hlines Hstar Hnl Htrim.
  unfold cleanPoem. rewrite Htrim.
  rewrite (remove_double_star_id y Hstar), (remove_star_id y Hstar).
  unfold replace_here. rewrite Hhere.
  unfold replace_title. rewrite Htitle.
  rewrite (filter_all non_blank (split_lines y) Hlines).
  rewrite keep_five_short by (rewrite split_lines_length; lia).
  rewrite join_split_lines. exact Htrim.
Qed.

(** The hypotheses of the theorem hold of an ordinary poem. *)
Lemma cleanPoem_idempotent_without_preamble_witness :
  match_here (cleanPoem sample_poem) = None
  /\ match_title (cleanPoem sample_poem) = None
  /\ cleanPoem (cleanPoem sample_poem) = cleanPoem sample_poem.
Proof.
  split; [vm_compute; reflexivity|].
  split; [vm_compute; reflexivity|].
  apply cleanPoem_idempotent_without_preamble; vm_compute; reflexivity.
Defined.

(** C2 as stated fails: a second introductory clause survives the first
    pass and is removed by the second. *)
Lemma cleanPoem_not_idempotent :
  cleanPoem (cleanPoem (lit "Here's a: Here's b: x"))
  <> cleanPoem (lit "Here's a: Here's b: x").
Proof. vm_compute. discriminate. Qed.

(** C3: only a title line at the very start of the text is removed; one
    on a later line stays. *)
Theorem cleanPoem_keeps_later_title_line :
  cleanPoem (lit "Dawn" ++ LF :: lit "Title: Morning" ++ LF :: lit "Light")
  = lit "Dawn" ++ LF :: lit "Title: Morning" ++ LF :: lit "Light".
Proof. vm_compute. reflexivity. Qed.

End CleanTwice.

(** ** The Prompt Builder *)

Section PromptFacts.

Lemma jsstring_eqb_eq (a b : jsstring) : jsstring_eqb a b = true <-> a = b.
Proof.
  unfold jsstring_eqb. destruct (list_eq_dec N.eq_dec a b); split;
    congruence.
Qed.

Lemma jsstring_eqb_sym (a b : jsstring) : jsstring_eqb a b = jsstring_eqb b a.
Proof.
  unfold jsstring_eqb.
  destruct (list_eq_dec N.eq_dec a b), (list_eq_dec N.eq_dec b a);
    congruence.
Qed.

Lemma jsstring_eqb_cons_nil (c : code_unit) (s : jsstring) :
  jsstring_eqb (c :: s) [] = false.
Proof.
  unfold jsstring_eqb. destruct (list_eq_dec N.eq_dec (c :: s) []);
    [discriminate | reflexivity].
Qed.

(** Each template is a fixed, non-empty persona framing, the input, a
    newline and the instruction. *)
Lemma themeContexts_shape (userInput key template : jsstring) :
  In (key, template) (themeContexts userInput) ->
  exists framing,
    framing <> [] /\ template = framing ++ userInput ++ LF :: instruction.
Proof.
  unfold themeContexts.
  intros [H|[H|[H|[]]]]; apply pair_equal_spec in H; destruct H as [_ <-];
    eexists; (split; [|reflexivity]);
    intros E; vm_compute in E; discriminate E.
Qed.

Lemma assoc_In {A : Type} (key : jsstring) (ps : list (jsstring * A)) (v : A) :
  assoc key ps = Some v -> In (key, v) ps.
Proof.
  induction ps as [|[k x] rest IH]; simpl; [discriminate|].
  destruct (jsstring_eqb k key) eqn:E.
  - apply jsstring_eqb_eq in E. intros [= ->]. left. now subst.
  - intros H. right. now apply IH.
Qed.

Lemma assoc_themeContexts_unrecognized (userInput theme : jsstring) :
  recognized theme = false -> assoc theme (themeContexts userInput) = None.
Proof.
  unfold recognized, themeContexts. intros H.
  apply orb_false_iff in H. destruct H as [H H3].
  apply orb_false_iff in H. destruct H as [H1 H2].
  cbn [assoc].
  rewrite (jsstring_eqb_sym (lit "lovelines")), H1.
  rewrite (jsstring_eqb_sym (lit "moodverse")), H2.
  rewrite (jsstring_eqb_sym (lit "soulscript")), H3.
  reflexivity.
Qed.

(** A template string is never empty, hence truthy. *)
Lemma template_truthy (userInput key template : jsstring) :
  In (key, template) (themeContexts userInput) ->
  truthy (VString template) = true.
Proof.
  intros H. apply themeContexts_shape in H.
  destruct H as (framing & Hne & ->).
  destruct framing as [|c f]; [congruence|].
  cbn [truthy]. rewrite <- app_comm_cons. now rewrite jsstring_eqb_cons_nil.
Qed.

(** The default: what [themeContexts["moodverse"]] holds. *)
Lemma buildPrompt_moodverse (userInput : jsstring) :
  buildPrompt userInput (Some (lit "moodverse"))
  = VString
      (lit "You are an emotional poet. Write a deeply emotional poem (exactly 5 lines) that captures these feelings: "
         ++ userInput ++ LF :: instruction).
Proof.
  unfold buildPrompt.
  assert (E : get_property (themeContexts userInput) (lit "moodverse")
              = VString
                  (lit "You are an emotional poet. Write a deeply emotional poem (exactly 5 lines) that captures these feelings: "
                     ++ userInput ++ LF :: instruction)) by reflexivity.
  cbn [property_key]. rewrite E.
  rewrite (template_truthy userInput (lit "moodverse")); [reflexivity|].
  right. left. reflexivity.
Qed.

(** A theme that is neither a key of the table nor a name of
    [Object.prototype] gets the default template. *)
Lemma buildPrompt_unknown_theme (userInput theme : jsstring) :
  recognized theme = false -> inherited theme = false ->
  buildPrompt userInput (Some theme)
  = buildPrompt userInput (Some (lit "moodverse")).
Proof.
  intros Hr Hi. rewrite buildPrompt_moodverse.
  unfold buildPrompt at 1, get_property at 1. cbn [property_key].
  rewrite (assoc_themeContexts_unrecognized userInput theme Hr).
  unfold inherited in Hi.
  destruct (assoc theme object_prototype); [discriminate|].
  cbn [truthy]. reflexivity.
Qed.

(** An omitted theme reads the key ["undefined"], and gets the default
    template too. *)
Lemma buildPrompt_omitted_theme (userInput : jsstring) :
  buildPrompt userInput None = buildPrompt userInput (Some (lit "moodverse")).
Proof.
  change (buildPrompt userInput None)
    with (buildPrompt userInput (Some (lit "undefined"))).
  apply buildPrompt_unknown_theme; reflexivity.
Qed.

(** Whenever the theme is not a name of [Object.prototype], the prompt is
    a string that embeds the input and ends with the instruction. *)
Lemma buildPrompt_string (userInput theme : jsstring) :
  inherited theme = false ->
  exists prompt,
    buildPrompt userInput (Some theme) = VString prompt
    /\ substring_of userInput prompt
    /\ ends_with instruction prompt.
Proof.
  intros Hi.
  assert (Hshape : forall key template,
             In (key, template) (themeContexts userInput) ->
             substring_of userInput template /\ ends_with instruction template).
  { intros key template H. apply themeContexts_shape in H.
    destruct H as (framing & _ & ->). split.
    - exists framing, (LF :: instruction). reflexivity.
    - exists (framing ++ userInput ++ [LF]).
      rewrite <- !app_assoc. reflexivity. }
  destruct (recognized theme) eqn:Hr.
  - unfold buildPrompt, get_property. cbn [property_key].
    destruct (assoc theme (themeContexts userInput)) as [t|] eqn:E.
    + apply assoc_In in E.
      rewrite (template_truthy userInput theme t E).
      exists t. split; [reflexivity|]. now apply (Hshape theme).
    + exfalso. unfold recognized in Hr. unfold themeContexts in E.
      cbn [assoc] in E.
      rewrite (jsstring_eqb_sym (lit "lovelines")) in E.
      rewrite (jsstring_eqb_sym (lit "moodverse")) in E.
      rewrite (jsstring_eqb_sym (lit "soulscript")) in E.
      destruct (jsstring_eqb theme (lit "lovelines")); [discriminate|].
      destruct (jsstring_eqb theme (lit "moodverse")); [discriminate|].
      destruct (jsstring_eqb theme (lit "soulscript")); discriminate.
  - rewrite (buildPrompt_unknown_theme userInput theme Hr Hi).
    rewrite buildPrompt_moodverse. eexists. split; [reflexivity|].
    apply (Hshape (lit "moodverse")). right. left. reflexivity.
Qed.

(** C4: the theme ["toString"] is not a key of the table, yet
    [themeContexts["toString"]] finds the function the object literal
    inherits from [Object.prototype]; it is truthy, so it is returned in
    place of the default template: the result is not a string and differs
    from the default theme's prompt. *)
Theorem buildPrompt_inherited_key_not_default :
  recognized (lit "toString") = false
  /\ buildPrompt (lit "first snow") (Some (lit "toString"))
     = VBuiltin (lit "Object.prototype.toString")
  /\ buildPrompt (lit "first snow") (Some (lit "toString"))
     <> buildPrompt (lit "first snow") (Some (lit "moodverse")).
Proof.
  split; [reflexivity|]. split; [reflexivity|].
  vm_compute. discriminate.
Qed.

(** C5: for the theme ["constructor"] and a non-empty input the result is
    the inherited [Object] function, not a string: no prompt text embeds
    the input or ends with the instruction. *)
Theorem buildPrompt_inherited_key_not_a_string :
  buildPrompt (lit "first snow") (Some (lit "constructor"))
  = VBuiltin (lit "Object")
  /\ forall prompt,
       buildPrompt (lit "first snow") (Some (lit "constructor"))
       <> VString prompt.
Proof.
  split; [reflexivity|]. intros prompt. vm_compute. discriminate.
Qed.

End PromptFacts.

(** ** The generation handler *)

Section HandlerFacts.

Local Open Scope Z_scope.
Local Open Scope server_scope.

(** *** Computations that send nothing *)

Lemma silent_ret {A : Type} (a : A) : silent (ret a).
Proof. intros w. reflexivity. Qed.

Lemma silent_throw {A : Type} (e : js_error) : silent (@throw A e).
Proof. intros w. reflexivity. Qed.

Lemma silent_emit (e : event) : silent (emit e).
Proof. intros w. reflexivity. Qed.

Lemma silent_bind {A B : Type} (m : M A) (k : A -> M B) :
  silent m -> (forall a, silent (k a)) -> silent (bind m k).
Proof.
  intros Hm Hk w. unfold bind. specialize (Hm w).
  destruct (m w) as [w1 [e|a]]; simpl in *.
  - assumption.
  - rewrite (Hk a w1). assumption.
Qed.

Lemma silent_get_named (v : js) (name : string) : silent (get_named v name).
Proof.
  destruct v as [[| | | | |]|]; simpl;
    first [apply silent_ret | apply silent_throw].
Qed.

Lemma silent_get_first (v : js) : silent (get_first v).
Proof.
  destruct v as [[| | | | |]|]; simpl;
    first [apply silent_ret | apply silent_throw].
Qed.

Lemma silent_validate (v : js) : silent (validate v).
Proof.
  unfold validate. destruct (negb (to_boolean v)); [apply silent_ret|].
  destruct v as [[| | | s | |]|]; try apply silent_throw.
  destruct (List.length (trim s) =? 0)%nat; apply silent_ret.
Qed.

Ltac silent_step :=
  first [ apply silent_get_named | apply silent_get_first
        | apply silent_ret | apply silent_throw | apply silent_emit ].

Lemma silent_first_text (data : json) : silent (first_text data).
Proof.
  unfold first_text.
  repeat (apply silent_bind; [silent_step|];
          intros ?; destruct (negb (to_boolean _)); [silent_step|]).
  silent_step.
Qed.

Lemma silent_clean_text (text : js) : silent (clean_text text).
Proof. destruct text as [[| | | | |]|]; simpl; silent_step. Qed.

Lemma silent_remote_call (env : environment) (prompt : js_value) :
  silent (remote_call env prompt).
Proof.
  unfold remote_call. apply silent_bind; [apply silent_emit|].
  intros _. destruct (axios_post env prompt); silent_step.
Qed.

(** *** Computations that send one response *)

Lemma one_or_throw_send (P : http_response -> Prop) (c : Z) (b : payload) :
  P {| status := c; body := b |} -> one_or_throw P (send c b).
Proof. intros H w. simpl. eexists. split; [reflexivity | exact H]. Qed.

Lemma one_or_throw_bind {A : Type} (P : http_response -> Prop)
    (m : M A) (k : A -> M unit) :
  silent m -> (forall a, one_or_throw P (k a)) -> one_or_throw P (bind m k).
Proof.
  intros Hm Hk w. unfold bind. specialize (Hm w).
  destruct (m w) as [w1 [e|a]]; simpl in *.
  - assumption.
  - specialize (Hk a w1). destruct (k a w1) as [w2 [e|u]].
    + congruence.
    + destruct Hk as (r & Hr & HP). exists r. split; [congruence | assumption].
Qed.

Lemma always_one_send (P : http_response -> Prop) (c : Z) (b : payload) :
  P {| status := c; body := b |} -> always_one P (send c b).
Proof.
  intros H w. eexists. eexists. split; [reflexivity|].
  split; [reflexivity | exact H].
Qed.

Lemma always_one_after_emit (P : http_response -> Prop) (e : event)
    (m : M unit) :
  always_one P m -> always_one P (emit e ;; m).
Proof.
  intros H w. unfold bind, emit.
  destruct (H {| sent := sent w; trace := trace w ++ [e] |})
    as (w' & r & E & Hs & HP).
  exists w', r. split; [exact E|]. split; assumption.
Qed.

Lemma always_one_try_catch (P : http_response -> Prop) (m : M unit)
    (handler : js_error -> M unit) :
  one_or_throw P m -> (forall e, always_one P (handler e)) ->
  always_one P (try_catch m handler).
Proof.
  intros Hm Hh w. unfold try_catch. specialize (Hm w).
  destruct (m w) as [w1 [e|[]]].
  - destruct (Hh e w1) as (w' & r & E & Hs & HP).
    exists w', r. split; [exact E|]. split; [congruence | assumption].
  - destruct Hm as (r & Hs & HP). exists w1, r. auto.
Qed.

Lemma error_json_reply (c : Z) (msg : string) (retry : option Z) :
  In c [400; 429; 500; 503; 504] ->
  error_reply {| status := c; body := ErrorResponse (lit msg) retry |}.
Proof. intros H. exists (lit msg), retry. split; [reflexivity | exact H]. Qed.

Ltac error_json_step :=
  unfold error_json; apply always_one_send; apply error_json_reply;
  simpl; tauto.

(** The [catch] block always answers, with an error payload. *)
Lemma on_error_always_one (e : js_error) : always_one error_reply (on_error e).
Proof.
  unfold on_error. apply always_one_after_emit.
  destruct (response e) as [r|].
  - apply always_one_after_emit.
    repeat match goal with
           | |- always_one _ (if ?b then _ else _) => destruct b
           end; error_json_step.
  - destruct (code e) as [c|]; [destruct (jsstring_eqb c _)|]; error_json_step.
Qed.

(** The [try] block answers once, or throws before answering. *)
Lemma generate_one_or_throw (env : environment) (req : request_body) :
  one_or_throw (fun r => success_reply env req r \/ error_reply r)
    (generate env req).
Proof.
  unfold generate.
  apply one_or_throw_bind; [apply silent_validate|].
  intros [|text].
  - unfold error_json. apply one_or_throw_send. right.
    apply error_json_reply. simpl; tauto.
  - destruct (key_missing env).
    + apply one_or_throw_bind; [apply silent_emit|]. intros _.
      unfold error_json. apply one_or_throw_send. right.
      apply error_json_reply. simpl; tauto.
    + apply one_or_throw_bind; [apply silent_emit|]. intros _.
      apply one_or_throw_bind; [apply silent_remote_call|]. intros data.
      apply one_or_throw_bind; [apply silent_first_text|]. intros text'.
      apply one_or_throw_bind; [apply silent_clean_text|]. intros poem.
      apply one_or_throw_send. left. exists poem. reflexivity.
Qed.

Lemma generate_poem_always_one (env : environment) (req : request_body) :
  always_one (fun r => success_reply env req r \/ error_reply r)
    (generate_poem env req).
Proof.
  unfold generate_poem. apply always_one_try_catch.
  - apply generate_one_or_throw.
  - intros e w. destruct (on_error_always_one e w) as (w' & r & E & Hs & HP).
    exists w', r. auto.
Qed.

(** Once the handler runs it sends exactly one response, the success
    payload or an error payload, and it never throws. *)
Theorem generate_poem_exactly_one_response
    (env : environment) (req : request_body) :
  snd (generate_poem env req start) = inr tt
  /\ exists r,
       sent (run_generate_poem env req) = [r]
       /\ (success_reply env req r \/ error_reply r)
       /\ ~ (success_reply env req r /\ error_reply r).
Proof.
  unfold run_generate_poem.
  destruct (generate_poem_always_one env req start) as (w' & r & E & Hs & HP).
  rewrite E. split; [reflexivity|]. exists r. split; [exact Hs|].
  split; [exact HP|].
  intros [[poem ->] (msg & retry & Hb & _)]. discriminate Hb.
Qed.

(** *** Validation *)

Lemma validate_accepts (s : jsstring) (w : world) :
  trim s <> [] -> validate (Some (JString s)) w = (w, inr (Accepted s)).
Proof.
  intros H. unfold validate. destruct s as [|c s']; [now destruct H|].
  cbn [to_boolean]. rewrite jsstring_eqb_cons_nil. cbn [negb].
  destruct (trim (c :: s')); [now destruct H | reflexivity].
Qed.

(** C7: a POST /api/generate-poem whose [userInput] is absent, empty or
    only white space is answered 400 with the validation message, whatever
    the credential and the remote service are; nothing is logged, no prompt
    is built and no outbound call is made. *)
Theorem blank_input_rejected_first
    (public : jsstring -> option jsstring) (env : environment)
    (req : request_body) :
  blank_input (userInput req) ->
  run_generate_poem env req = {| sent := [validation_reply]; trace := [] |}
  /\ serve public env
       {| method := POST; path := lit "/api/generate-poem";
          body_error := None; req_body := req |}
     = [validation_reply].
Proof.
  intros H.
  assert (E : generate_poem env req start
              = ({| sent := [validation_reply]; trace := [] |}, inr tt)).
  { unfold generate_poem, try_catch, generate, bind.
    destruct H as [H|(s & H & Ht)]; rewrite H.
    - reflexivity.
    - unfold validate. cbn [to_boolean].
      destruct s as [|c s']; [reflexivity|].
      rewrite jsstring_eqb_cons_nil. cbn [negb]. rewrite Ht. reflexivity. }
  split.
  - unfold run_generate_poem. now rewrite E.
  - unfold serve, app. cbn [dispatch cors_layer method].
    unfold json_layer, static_layer, health_route, generate_poem_route.
    cbn [method path req_body body_error reads andb].
    change (route_matches "/api/generate-poem" (lit "/api/generate-poem"))
      with true.
    cbv iota. now rewrite E.
Qed.

(** The validation comes first even when no credential is configured. *)
Lemma blank_input_rejected_first_witness :
  blank_input (userInput blank_request)
  /\ run_generate_poem unconfigured_env blank_request
     = {| sent := [validation_reply]; trace := [] |}
  /\ serve (fun _ => None) unconfigured_env
       {| method := POST; path := lit "/api/generate-poem";
          body_error := None; req_body := blank_request |}
     = [validation_reply].
Proof.
  assert (H : blank_input (userInput blank_request)).
  { right. exists (lit "   "). split; reflexivity. }
  split; [exact H|].
  exact (blank_input_rejected_first (fun _ => None) unconfigured_env
           blank_request H).
Defined.

(** *** The error table *)

Lemma spec_error_status_http (s : Z) :
  spec_error_status (HttpStatus s)
  = if s =? 400 then (400, None)
    else if (s =? 401) || (s =? 403) then (500, None)
    else if s =? 429 then (429, Some 10)
    else if s =? 503 then (503, Some 20)
    else (500, None).
Proof.
  destruct s as [|p|p]; try reflexivity.
  do 10 (try (destruct p as [p|p|]; try reflexivity)).
Qed.

Lemma on_error_spec (e : js_error) (w : world) :
  exists msg tr,
    on_error e w
    = ({| sent := sent w
            ++ [{| status := fst (spec_error_status (classify e));
                   body := ErrorResponse msg
                             (snd (spec_error_status (classify e))) |}];
          trace := tr |}, inr tt).
Proof.
  unfold on_error, classify, bind, emit, error_json, send.
  destruct (response e) as [r|].
  - rewrite spec_error_status_http. cbn [sent trace].
    repeat match goal with
           | |- context [if ?b then _ else _] => destruct b
           end; eexists; eexists; reflexivity.
  - cbn [sent trace].
    destruct (code e) as [c|]; [destruct (jsstring_eqb c _)|];
      eexists; eexists; reflexivity.
Qed.

(** C8: with a valid [userInput] and a configured credential, a failing
    remote call is answered with the status and the retry hint the error
    table prescribes for its kind of failure. *)
Theorem remote_failure_status
    (env : environment) (req : request_body) (s : jsstring) (e : js_error) :
  userInput req = Some (JString s) ->
  trim s <> [] ->
  key_missing env = false ->
  axios_post env (buildPrompt s (theme req)) = inl e ->
  exists msg,
    sent (run_generate_poem env req)
    = [{| status := fst (spec_error_status (classify e));
          body := ErrorResponse msg (snd (spec_error_status (classify e))) |}].
Proof.
  intros Hu Ht Hk Ha.
  unfold run_generate_poem, generate_poem, try_catch, generate.
  unfold bind at 1. rewrite Hu, (validate_accepts s start Ht), Hk.
  unfold bind, remote_call, bind, emit. cbn [sent trace start app].
  rewrite Ha. unfold throw.
  match goal with
  | |- context [on_error e ?w] =>
      destruct (on_error_spec e w) as (msg & tr & E); rewrite E
  end.
  exists msg. reflexivity.
Qed.

(** A remote 429 is answered 429 with [retryAfter: 10]. *)
Lemma remote_failure_status_witness :
  exists msg,
    sent (run_generate_poem throttled_env sunset_request)
    = [{| status := 429; body := ErrorResponse msg (Some 10) |}].
Proof.
  refine (remote_failure_status throttled_env sunset_request
            (lit "evening by the sea")
            {| message := lit "Request failed with status code 429";
               response := Some {| reply_status := 429; reply_data := JNull |};
               code := Some (lit "ERR_BAD_REQUEST") |} _ _ _ _).
  - reflexivity.
  - vm_compute. discriminate.
  - reflexivity.
  - reflexivity.
Defined.

(** *** The success response *)

(** C10: a success payload carries the theme of the request as it came:
    the unrecognised name when the default template was used, and nothing
    when the request had no theme. *)
Theorem success_response_echoes_theme
    (env : environment) (req : request_body) (r : http_response)
    (poem : jsstring) (t : option jsstring) (ts : jsstring) :
  In r (sent (run_generate_poem env req)) ->
  body r = GenerationResult poem t ts ->
  t = theme req.
Proof.
  intros Hin Hb. unfold run_generate_poem in Hin.
  destruct (generate_poem_always_one env req start) as (w' & r0 & E & Hs & HP).
  rewrite E in Hin. cbn [fst] in Hin. rewrite Hs in Hin.
  destruct Hin as [<-|[]].
  destruct HP as [[p ->]|(msg & retry & Hb' & _)].
  - cbn [body] in Hb. congruence.
  - congruence.
Qed.

(** The unrecognised theme ["sunset"] comes back in the success payload. *)
Lemma success_response_echoes_theme_witness :
  In {| status := 200;
        body := GenerationResult (cleanPoem sample_poem) (Some (lit "sunset"))
                  (now answering_env) |}
     (sent (run_generate_poem answering_env sunset_request))
  /\ Some (lit "sunset") = theme sunset_request.
Proof.
  assert (H : In {| status := 200;
                    body := GenerationResult (cleanPoem sample_poem)
                              (Some (lit "sunset")) (now answering_env) |}
                 (sent (run_generate_poem answering_env sunset_request))).
  { left. vm_compute. reflexivity. }
  split; [exact H|].
  exact (success_response_echoes_theme answering_env sunset_request _
           (cleanPoem sample_poem) (Some (lit "sunset")) (now answering_env)
           H eq_refl).
Defined.

(** With the unrecognised theme the prompt sent is the default one. *)
Lemma sunset_request_uses_default_template :
  trace (run_generate_poem answering_env sunset_request)
  = [ PromptBuilt (buildPrompt (lit "evening by the sea") (Some (lit "moodverse")));
      AxiosPost (buildPrompt (lit "evening by the sea") (Some (lit "moodverse"))) ].
Proof. vm_compute. reflexivity. Qed.

(** A request without a theme succeeds with no theme in the payload. *)
Lemma omitted_theme_stays_absent :
  sent (run_generate_poem answering_env
          {| userInput := Some (JString (lit "evening by the sea"));
             theme := None |})
  = [{| status := 200;
        body := GenerationResult (cleanPoem sample_poem) None
                  (now answering_env) |}].
Proof. vm_compute. reflexivity. Qed.

End HandlerFacts.

(** ** Routing *)

Section Routing.

(** X24: whatever no earlier layer answers is answered by the 404
    middleware; the fallback registered after it is never consulted. *)
Lemma unanswered_request_gets_404
    (public : jsstring -> option jsstring) (env : environment) (req : request) :
  cors_layer req = None ->
  json_layer req = None ->
  static_layer public req = None ->
  health_route env req = None ->
  generate_poem_route env req = None ->
  serve public env req = [not_found_reply].
Proof.
  intros H1 Hj H2 H3 H4. unfold serve, app. cbn [dispatch].
  rewrite H1, Hj, H2, H3, H4. reflexivity.
Qed.

(** C1: a GET for a page of the frontend that is neither a file of
    [public] nor an API route is answered 404 with the JSON error body, not
    with the entry document: the 404 middleware is registered before the
    fallback. *)
Theorem unmatched_page_gets_404_not_index (env : environment) :
  serve (fun _ => None) env dashboard_request = [not_found_reply]
  /\ spa_fallback dashboard_request
     = Some (send 200 (StaticFile (lit "public/index.html"))).
Proof. split; reflexivity. Qed.

End Routing.

(** ** Generation requests through the application *)

Section GenerationRequests.

Local Open Scope Z_scope.

Lemma parsed_post_dispatch
    (public : jsstring -> option jsstring) (env : environment) (req : request) :
  method req = POST ->
  route_matches "/api/generate-poem" (path req) = true ->
  body_error req = None ->
  dispatch (app public env) req = generate_poem env (req_body req).
Proof.
  intros Hm Hp Hb. unfold app. cbn [dispatch].
  unfold cors_layer, json_layer, static_layer, health_route,
    generate_poem_route.
  rewrite Hm, Hp, Hb. reflexivity.
Qed.




End GenerationRequests.

(** ** More on the Response Cleaner *)

Section CleanerShape.

Local Open Scope nat_scope.

(** *** What the matchers consume *)

Lemma trimStart_split (s : jsstring) :
  exists w,
    s = w ++ trimStart s /\ Forall (fun c => is_white_space c = true) w.
Proof.
  induction s as [|c r (w & E & Hw)]; [exists []; split; [reflexivity|constructor]|].
  simpl. destruct (is_white_space c) eqn:W.
  - exists (c :: w). split; [simpl; now rewrite <- E | now constructor].
  - exists []. split; [reflexivity | constructor].
Qed.

Lemma trimStart_fixed (s : jsstring) : trimStart (trimStart s) = trimStart s.
Proof.
  destruct (trimStart s) as [|c t] eqn:E; [reflexivity|].
  apply trimStart_head in E. simpl. now rewrite E.
Qed.

Lemma match_ci_split (pat s r : jsstring) :
  match_ci pat s = Some r ->
  exists p, s = p ++ r /\ map canonicalize p = map canonicalize pat.
Proof.
  revert s; induction pat as [|x pat IH]; intros s; simpl.
  - intros [= ->]. exists []. split; reflexivity.
  - destruct s as [|c s']; [discriminate|].
    destruct (N.eqb_spec (canonicalize c) (canonicalize x)) as [E|_];
      [|discriminate].
    intros H. destruct (IH s' H) as (p & -> & Hp).
    exists (c :: p). split; [reflexivity|]. simpl. now rewrite E, Hp.
Qed.

Lemma match_alt_split (p1 p2 s r : jsstring) :
  match_alt p1 p2 s = Some r ->
  exists p,
    s = p ++ r
    /\ (map canonicalize p = map canonicalize p1
        \/ map canonicalize p = map canonicalize p2).
Proof.
  unfold match_alt. destruct (match_ci p1 s) as [r1|] eqn:E.
  - intros [= <-]. destruct (match_ci_split p1 s _ E) as (p & Hs & Hp).
    exists p. auto.
  - intros H. destruct (match_ci_split p2 s _ H) as (p & Hs & Hp).
    exists p. auto.
Qed.

Lemma lazy_dots_then_split (stop : code_unit) (s r : jsstring) :
  lazy_dots_then stop s = Some r ->
  exists a,
    s = a ++ stop :: r
    /\ ~ In stop a
    /\ Forall (fun c => is_line_terminator c = false) a.
Proof.
  induction s as [|c s' IH]; simpl; [discriminate|].
  destruct (N.eqb_spec c stop) as [->|Hc].
  - intros [= ->]. exists []. split; [reflexivity|].
    split; [intros [] | constructor].
  - destruct (is_line_terminator c) eqn:T; [discriminate|].
    intros H. destruct (IH H) as (a & -> & Ha & Hlt).
    exists (c :: a). split; [reflexivity|]. split.
    + intros [E|Hin]; [now apply Hc | now apply Ha].
    + now constructor.
Qed.

(** A run that matches a literal without regard to case holds the code
    unit [x] only if the literal holds it up to case. *)
Lemma canonical_member (x : code_unit) (p pat : jsstring) :
  map canonicalize p = map canonicalize pat ->
  In x p -> In (canonicalize x) (map canonicalize pat).
Proof. intros <- H. now apply in_map. Qed.

Lemma match_here_split (s rest : jsstring) :
  match_here s = Some rest ->
  exists a w,
    s = a ++ COLON :: w ++ rest
    /\ ~ In COLON a
    /\ Forall (fun c => is_white_space c = true) w
    /\ trimStart rest = rest.
Proof.
  unfold match_here.
  destruct (match_alt _ _ s) as [r|] eqn:Ea; [|discriminate].
  destruct (lazy_dots_then COLON r) as [r'|] eqn:Eb; [|discriminate].
  intros [= <-].
  destruct (match_alt_split _ _ s _ Ea) as (p & -> & Hp).
  destruct (lazy_dots_then_split COLON r _ Eb) as (d & -> & Hd & _).
  destruct (trimStart_split r') as (w & Hw & Hws).
  exists (p ++ d), w. split; [rewrite <- app_assoc, <- Hw; reflexivity|].
  split; [|split; [exact Hws | apply trimStart_fixed]].
  intros Hin. apply in_app_or in Hin. destruct Hin as [Hin|Hin]; [|now apply Hd].
  destruct Hp as [Hp|Hp]; apply (canonical_member COLON p _ Hp) in Hin;
    vm_compute in Hin; repeat (destruct Hin as [Hin|Hin]; [discriminate Hin|]);
    exact Hin.
Qed.

Lemma match_title_split (s rest : jsstring) :
  match_title s = Some rest ->
  exists a, s = a ++ LF :: rest /\ ~ In LF a.
Proof.
  unfold match_title.
  destruct (match_alt _ _ s) as [r|] eqn:Ea; [|discriminate].
  destruct (match_ci [COLON] r) as [r'|] eqn:Eb; [|discriminate].
  intros Ec.
  destruct (match_alt_split _ _ s _ Ea) as (p & -> & Hp).
  destruct (match_ci_split [COLON] r _ Eb) as (q & -> & Hq).
  destruct (lazy_dots_then_split LF r' _ Ec) as (d & -> & Hd & _).
  exists (p ++ q ++ d). split; [now rewrite <- !app_assoc|].
  intros Hin. apply in_app_or in Hin. destruct Hin as [Hin|Hin].
  - destruct Hp as [Hp|Hp]; apply (canonical_member LF p _ Hp) in Hin;
      vm_compute in Hin; repeat (destruct Hin as [Hin|Hin]; [discriminate Hin|]);
      exact Hin.
  - apply in_app_or in Hin. destruct Hin as [Hin|Hin]; [|now apply Hd].
    apply (canonical_member LF q _ Hq) in Hin.
    vm_compute in Hin. repeat (destruct Hin as [Hin|Hin]; [discriminate Hin|]).
    exact Hin.
Qed.

(** X8: when the introductory clause matches, what is removed runs from
    the start of the text through its first colon and the white space
    after it; the text kept does not begin with white space. *)
Theorem intro_clause_ends_at_first_colon (s rest : jsstring) :
  match_here s = Some rest ->
  replace_here s = rest
  /\ exists a w,
       s = a ++ COLON :: w ++ rest
       /\ ~ In COLON a
       /\ Forall (fun c => is_white_space c = true) w
       /\ trimStart rest = rest.
Proof.
  intros H. split; [unfold replace_here; now rewrite H|].
  now apply match_here_split.
Qed.

Lemma intro_clause_ends_at_first_colon_witness :
  match_here (lit "Here's a: Here's b: x") = Some (lit "Here's b: x")
  /\ replace_here (lit "Here's a: Here's b: x") = lit "Here's b: x".
Proof.
  assert (H : match_here (lit "Here's a: Here's b: x")
              = Some (lit "Here's b: x")) by reflexivity.
  split; [exact H|].
  exact (proj1 (intro_clause_ends_at_first_colon _ _ H)).
Defined.

(** X7: the title replacement either leaves the text alone or removes
    exactly its first line together with the newline that ends it. *)
Theorem replace_title_drops_first_line_or_nothing (s : jsstring) :
  replace_title s = s
  \/ exists a, s = a ++ LF :: replace_title s /\ ~ In LF a.
Proof.
  unfold replace_title. destruct (match_title s) as [rest|] eqn:E.
  - right. now apply match_title_split.
  - now left.
Qed.

(** *** The two asterisk replacements *)

Lemma pair_induction (P : jsstring -> Prop) :
  P [] -> (forall c, P [c]) ->
  (forall c d r, P r -> P (d :: r) -> P (c :: d :: r)) ->
  forall s, P s.
Proof.
  intros H0 H1 H2 s.
  assert (H : P s /\ forall c, P (c :: s)).
  { induction s as [|d r [IHa IHb]]; [split; [exact H0 | exact H1]|].
    split; [apply IHb|]. intros c. apply H2; [exact IHa | apply IHb]. }
  apply H.
Qed.

Lemma remove_double_star_cons2 (c d : code_unit) (r : jsstring) :
  remove_double_star (c :: d :: r)
  = if ((c =? STAR) && (d =? STAR))%N then remove_double_star r
    else c :: remove_double_star (d :: r).
Proof. reflexivity. Qed.

Lemma remove_star_cons (c : code_unit) (s : jsstring) :
  remove_star (c :: s)
  = if (c =? STAR)%N then remove_star s else c :: remove_star s.
Proof. unfold remove_star. simpl. now destruct (c =? STAR)%N. Qed.

(** X1: the two replacements together delete every asterisk and nothing
    else: the pairs first, then the single ones. *)
Theorem asterisk_replacements_delete_all (s : jsstring) :
  remove_star (remove_double_star s)
  = List.filter (fun c => negb (c =? STAR)%N) s.
Proof.
  change (remove_star (remove_double_star s) = remove_star s).
  induction s as [| c | c d r IH1 IH2] using pair_induction;
    [reflexivity | reflexivity |].
  rewrite remove_double_star_cons2.
  destruct (c =? STAR)%N eqn:Ec.
  - destruct (d =? STAR)%N eqn:Ed; cbn [andb].
    + rewrite IH1, !remove_star_cons, Ec, Ed. reflexivity.
    + rewrite (remove_star_cons c (d :: r)), Ec.
      rewrite remove_star_cons, Ec. exact IH2.
  - cbn [andb]. rewrite (remove_star_cons c (d :: r)), Ec.
    rewrite remove_star_cons, Ec. now rewrite IH2.
Qed.

Lemma remove_double_star_incl (s : jsstring) : incl (remove_double_star s) s.
Proof.
  induction s as [| c | c d r IH1 IH2] using pair_induction;
    [apply incl_refl | apply incl_refl |].
  rewrite remove_double_star_cons2.
  destruct ((c =? STAR) && (d =? STAR))%N.
  - now apply incl_tl, incl_tl.
  - intros x [->|Hx]; [now left | right; now apply IH2].
Qed.

Lemma remove_double_star_length (s : jsstring) :
  List.length (remove_double_star s) <= List.length s.
Proof.
  induction s as [| c | c d r IH1 IH2] using pair_induction;
    [reflexivity | reflexivity |].
  rewrite remove_double_star_cons2.
  destruct ((c =? STAR) && (d =? STAR))%N; simpl in *; lia.
Qed.

End CleanerShape.

Section CleanerBounds.

Local Open Scope nat_scope.

(** *** Lengths *)

Lemma trimStart_length (s : jsstring) :
  List.length (trimStart s) <= List.length s.
Proof.
  destruct (trimStart_split s) as (w & E & _).
  apply (f_equal (@List.length _)) in E. rewrite length_app in E. lia.
Qed.

Lemma trimEnd_length (s : jsstring) : List.length (trimEnd s) <= List.length s.
Proof.
  induction s as [|c r IH]; [reflexivity|].
  destruct (trimEnd_cases c r) as [[_ ->]|[_ ->]].
  - destruct (is_white_space c); simpl; lia.
  - simpl. lia.
Qed.

Lemma trim_length (s : jsstring) : List.length (trim s) <= List.length s.
Proof.
  unfold trim. etransitivity; [apply trimEnd_length | apply trimStart_length].
Qed.

Lemma replace_here_length (s : jsstring) :
  List.length (replace_here s) <= List.length s.
Proof.
  unfold replace_here. destruct (match_here s) as [rest|] eqn:E; [|reflexivity].
  destruct (match_here_split s rest E) as (a & w & Hs & _).
  apply (f_equal (@List.length _)) in Hs.
  rewrite length_app in Hs. simpl in Hs. rewrite length_app in Hs. lia.
Qed.

Lemma replace_title_length (s : jsstring) :
  List.length (replace_title s) <= List.length s.
Proof.
  unfold replace_title. destruct (match_title s) as [rest|] eqn:E; [|reflexivity].
  destruct (match_title_split s rest E) as (a & Hs & _).
  apply (f_equal (@List.length _)) in Hs.
  rewrite length_app in Hs. simpl in Hs. lia.
Qed.

(** The length of a joined text: one more code unit per line than the
    lines hold, less the newline that does not follow the last line. *)
Lemma join_lines_length (ls : list jsstring) :
  ls <> [] ->
  S (List.length (join_lines ls))
  = list_sum (map (fun l => S (List.length l)) ls).
Proof.
  induction ls as [|l rest IH]; [congruence|]. intros _.
  destruct rest as [|l' rest'].
  - simpl. lia.
  - rewrite join_lines_cons by discriminate.
    rewrite length_app. specialize (IH ltac:(discriminate)).
    unfold list_sum in *. cbn [List.length map fold_right] in *. lia.
Qed.

Lemma list_sum_filter_le (f : jsstring -> nat) (g : jsstring -> bool)
    (ls : list jsstring) :
  list_sum (map f (List.filter g ls)) <= list_sum (map f ls).
Proof.
  induction ls as [|l rest IH]; [reflexivity|].
  simpl. destruct (g l); simpl; lia.
Qed.

Lemma list_sum_firstn_le (f : jsstring -> nat) (n : nat) (ls : list jsstring) :
  list_sum (map f (firstn n ls)) <= list_sum (map f ls).
Proof.
  revert n; induction ls as [|l rest IH]; intros [|n]; simpl; try lia.
  specialize (IH n). lia.
Qed.

Lemma list_sum_keep_five_le (f : jsstring -> nat) (ls : list jsstring) :
  list_sum (map f (keep_five ls)) <= list_sum (map f ls).
Proof.
  unfold keep_five. destruct (5 <? List.length ls); [|reflexivity].
  apply list_sum_firstn_le.
Qed.

Lemma kept_lines_joined_length (text : jsstring) :
  List.length (join_lines (kept_lines text))
  <= List.length
       (replace_title
          (replace_here (remove_star (remove_double_star (trim text))))).
Proof.
  unfold kept_lines.
  set (t := replace_title _).
  destruct (keep_five (List.filter non_blank (split_lines t))) as [|l ls] eqn:E;
    [simpl; lia|].
  pose proof (join_lines_length (l :: ls) ltac:(discriminate)) as H1.
  pose proof (join_lines_length (split_lines t) (split_lines_nonempty t)) as H2.
  rewrite join_split_lines in H2.
  pose proof (list_sum_keep_five_le (fun l => S (List.length l))
                (List.filter non_blank (split_lines t))) as H3.
  pose proof (list_sum_filter_le (fun l => S (List.length l)) non_blank
                (split_lines t)) as H4.
  rewrite E in H3. apply le_S_n.
  eapply Nat.le_trans; [|eapply Nat.le_trans; [|eapply Nat.le_trans]].
  - apply Nat.eq_le_incl. exact H1.
  - exact H3.
  - exact H4.
  - apply Nat.eq_le_incl. symmetry. exact H2.
Qed.

(** X6: the cleaned text is never longer than the text given. *)
Theorem cleanPoem_never_longer (text : jsstring) :
  List.length (cleanPoem text) <= List.length text.
Proof.
  rewrite cleanPoem_unfold.
  etransitivity; [apply trim_length|].
  etransitivity; [apply kept_lines_joined_length|].
  etransitivity; [apply replace_title_length|].
  etransitivity; [apply replace_here_length|].
  etransitivity; [apply filter_length_le|].
  etransitivity; [apply remove_double_star_length|].
  apply trim_length.
Qed.

(** *** Code units *)

Lemma kept_lines_text_incl (text : jsstring) :
  incl (replace_title
          (replace_here (remove_star (remove_double_star (trim text)))))
       text.
Proof.
  eapply incl_tran; [apply replace_title_incl|].
  eapply incl_tran; [apply replace_here_incl|].
  eapply incl_tran; [apply incl_filter|].
  eapply incl_tran; [apply remove_double_star_incl|].
  apply trim_incl.
Qed.

(** Every code unit of the cleaned text occurs in the text given; a
    newline between two kept lines was a newline of the text. *)
Theorem cleanPoem_invents_nothing (text : jsstring) :
  incl (cleanPoem text) text.
Proof.
  intros c Hc. rewrite cleanPoem_unfold in Hc. apply trim_incl in Hc.
  apply kept_lines_text_incl.
  set (t := replace_title _).
  assert (Hsub : incl (kept_lines text) (split_lines t)).
  { unfold kept_lines. fold t.
    eapply incl_tran; [apply keep_five_incl | apply incl_filter]. }
  destruct (N.eq_dec c LF) as [->|Hne].
  - assert (Hn : nl_count (join_lines (kept_lines text)) > 0)
      by (now apply count_occ_In).
    rewrite nl_count_join_lines in Hn
      by (apply Forall_forall; intros l Hl; now apply kept_lines_spec in Hl).
    assert (Hlen : List.length (kept_lines text) <= List.length (split_lines t)).
    { unfold kept_lines. fold t. unfold keep_five.
      destruct (5 <? _).
      - rewrite length_firstn.
        etransitivity; [apply Nat.le_min_r | apply filter_length_le].
      - apply filter_length_le. }
    rewrite split_lines_length in Hlen.
    apply (count_occ_In N.eq_dec). unfold nl_count in Hlen. lia.
  - apply join_lines_In in Hc. destruct Hc as [E|(l & Hl & Hin)]; [contradiction|].
    apply Hsub in Hl. now apply (split_lines_incl t l).
Qed.

(** *** Degenerate and already clean texts *)

Lemma trimStart_all_white_space (s : jsstring) :
  Forall (fun c => is_white_space c = true) s -> trimStart s = [].
Proof.
  induction 1 as [|c r Hc Hr IH]; [reflexivity|]. simpl. now rewrite Hc.
Qed.

(** X4: a text of white space only is cleaned to the empty string. *)
Theorem cleanPoem_of_white_space (text : jsstring) :
  Forall (fun c => is_white_space c = true) text -> cleanPoem text = [].
Proof.
  intros H. unfold cleanPoem, trim at 2.
  rewrite (trimStart_all_white_space text H). reflexivity.
Qed.

Lemma cleanPoem_of_white_space_witness :
  Forall (fun c => is_white_space c = true) (lit "  " ++ [LF; 9%N; 160%N])
  /\ cleanPoem (lit "  " ++ [LF; 9%N; 160%N]) = [].
Proof.
  assert (H : Forall (fun c => is_white_space c = true)
                (lit "  " ++ [LF; 9%N; 160%N]))
    by (repeat constructor).
  split; [exact H|].
  exact (cleanPoem_of_white_space _ H).
Defined.

(** X2: the cleaned text has no white space at either end, and it is
    empty or each of its lines holds something other than white space. *)
Theorem cleanPoem_is_tidy (text : jsstring) :
  trim (cleanPoem text) = cleanPoem text
  /\ (cleanPoem text = [] \/ all_lines_non_blank (cleanPoem text)).
Proof.
  split; [apply cleanPoem_trimmed | apply cleanPoem_lines].
Qed.

(** X5: a text that is already clean is returned as it is: trimmed, no
    asterisk, no introductory clause or title line at its start, no blank
    line, at most five lines. *)
Theorem cleanPoem_fixes_clean_text (y : jsstring) :
  trim y = y ->
  ~ In STAR y ->
  match_here y = None ->
  match_title y = None ->
  all_lines_non_blank y ->
  List.length (split_lines y) <= 5 ->
  cleanPoem y = y.
Proof.
  intros Htrim Hstar Hhere Htitle Hlines Hlen.
  unfold cleanPoem. rewrite Htrim.
  rewrite (remove_double_star_id y Hstar), (remove_star_id y Hstar).
  unfold replace_here. rewrite Hhere.
  unfold replace_title. rewrite Htitle.
  rewrite (filter_all non_blank (split_lines y) Hlines).
  rewrite keep_five_short by assumption.
  rewrite join_split_lines. exact Htrim.
Qed.

Lemma cleanPoem_fixes_clean_text_witness :
  cleanPoem (lit "Dawn" ++ LF :: lit "  light on the hills")
  = lit "Dawn" ++ LF :: lit "  light on the hills".
Proof.
  apply cleanPoem_fixes_clean_text.
  - vm_compute. reflexivity.
  - vm_compute. intros H.
    repeat (destruct H as [H|H]; [discriminate H|]). exact H.
  - vm_compute. reflexivity.
  - vm_compute. reflexivity.
  - unfold all_lines_non_blank. vm_compute. repeat constructor.
  - vm_compute. repeat constructor.
Defined.

End CleanerBounds.

(** ** More on the Prompt Builder *)

Section PromptShape.

(** A theme outside [Object.prototype] fixes a framing; the prompt is the
    framing, the input, a newline and the instruction. *)
Lemma buildPrompt_framing (theme : jsstring) :
  inherited theme = false ->
  exists framing,
    forall userInput,
      buildPrompt userInput (Some theme)
      = VString (framing ++ userInput ++ LF :: instruction).
Proof.
  intros Hi. destruct (recognized theme) eqn:Hr.
  - unfold recognized in Hr.
    apply orb_true_iff in Hr. destruct Hr as [Hr|Hr];
      [apply orb_true_iff in Hr; destruct Hr as [Hr|Hr]|];
      apply jsstring_eqb_eq in Hr; subst theme;
      eexists; intros userInput; reflexivity.
  - eexists. intros userInput.
    rewrite (buildPrompt_unknown_theme userInput theme Hr Hi).
    apply buildPrompt_moodverse.
Qed.

(** X10: for a theme outside [Object.prototype] the input can be read
    back from the prompt: two inputs with the same prompt are equal. *)
Theorem buildPrompt_determines_input (theme u u' : jsstring) :
  inherited theme = false ->
  buildPrompt u (Some theme) = buildPrompt u' (Some theme) ->
  u = u'.
Proof.
  intros Hi H. destruct (buildPrompt_framing theme Hi) as (framing & Hf).
  rewrite !Hf in H. injection H as H.
  apply app_inv_head in H. now apply app_inv_tail in H.
Qed.

Lemma buildPrompt_determines_input_witness :
  inherited (lit "soulscript") = false
  /\ buildPrompt (lit "rain") (Some (lit "soulscript"))
     = buildPrompt (lit "rain") (Some (lit "soulscript"))
  /\ lit "rain" = lit "rain".
Proof.
  split; [reflexivity|]. split; [reflexivity|].
  apply (buildPrompt_determines_input (lit "soulscript") (lit "rain") (lit "rain"));
    reflexivity.
Defined.

(** X11: two different recognised themes give different prompts for the
    same input. *)
Theorem recognized_themes_have_distinct_prompts (userInput t1 t2 : jsstring) :
  recognized t1 = true ->
  recognized t2 = true ->
  t1 <> t2 ->
  buildPrompt userInput (Some t1) <> buildPrompt userInput (Some t2).
Proof.
  intros H1 H2 Hne. unfold recognized in H1, H2.
  apply orb_true_iff in H1. destruct H1 as [H1|H1];
    [apply orb_true_iff in H1; destruct H1 as [H1|H1]|];
    apply jsstring_eqb_eq in H1; subst t1;
    (apply orb_true_iff in H2; destruct H2 as [H2|H2];
     [apply orb_true_iff in H2; destruct H2 as [H2|H2]|]);
    apply jsstring_eqb_eq in H2; subst t2;
    try (exfalso; apply Hne; reflexivity);
    intros E; apply (f_equal (fun v => match v with
                                       | VString p => firstn 12 p
                                       | _ => []
                                       end)) in E;
    vm_compute in E; discriminate E.
Qed.

Lemma recognized_themes_have_distinct_prompts_witness :
  buildPrompt (lit "rain") (Some (lit "lovelines"))
  <> buildPrompt (lit "rain") (Some (lit "soulscript")).
Proof.
  apply recognized_themes_have_distinct_prompts;
    [reflexivity | reflexivity | vm_compute; discriminate].
Defined.

(** X9: whatever the theme, present or not, the result is truthy: never
    [undefined] and never the empty string. *)
Theorem buildPrompt_truthy (userInput : jsstring) (theme : option jsstring) :
  truthy (buildPrompt userInput theme) = true.
Proof.
  unfold buildPrompt.
  destruct (truthy (get_property (themeContexts userInput) (property_key theme)))
    eqn:E; [exact E|].
  apply (template_truthy userInput (lit "moodverse")).
  right. left. reflexivity.
Qed.

(** X12: a theme that is neither a key of the table nor a name of
    [Object.prototype], and likewise a missing theme, gets the moodverse
    template. *)
Theorem unknown_theme_gets_moodverse (userInput theme : jsstring) :
  recognized theme = false ->
  inherited theme = false ->
  buildPrompt userInput (Some theme)
  = VString
      (lit "You are an emotional poet. Write a deeply emotional poem (exactly 5 lines) that captures these feelings: "
         ++ userInput ++ LF :: instruction)
  /\ buildPrompt userInput None = buildPrompt userInput (Some theme).
Proof.
  intros Hr Hi.
  rewrite buildPrompt_omitted_theme.
  rewrite (buildPrompt_unknown_theme userInput theme Hr Hi).
  split; [apply buildPrompt_moodverse | reflexivity].
Qed.

Lemma unknown_theme_gets_moodverse_witness :
  buildPrompt (lit "rain") None = buildPrompt (lit "rain") (Some (lit "LoveLines")).
Proof.
  apply (unknown_theme_gets_moodverse (lit "rain") (lit "LoveLines"));
    reflexivity.
Defined.

(** X13: for every theme whose key is not a name of [Object.prototype],
    a missing theme included, the prompt is a string that holds the input
    as a contiguous run and ends with the instruction. *)
Theorem buildPrompt_embeds_input (userInput : jsstring) (theme : option jsstring) :
  inherited (property_key theme) = false ->
  exists prompt,
    buildPrompt userInput theme = VString prompt
    /\ substring_of userInput prompt
    /\ ends_with instruction prompt.
Proof.
  intros Hi.
  change (buildPrompt userInput theme)
    with (buildPrompt userInput (Some (property_key theme))).
  now apply buildPrompt_string.
Qed.

Lemma buildPrompt_embeds_input_witness :
  exists prompt,
    buildPrompt (lit "rain") None = VString prompt
    /\ substring_of (lit "rain") prompt
    /\ ends_with instruction prompt.
Proof.
  apply (buildPrompt_embeds_input (lit "rain") None). reflexivity.
Defined.

(** X14: a theme that names a property of [Object.prototype] gets that
    built-in, the same for every input, and never a string. *)
Theorem inherited_theme_gets_builtin (theme : jsstring) :
  inherited theme = true ->
  exists name, forall userInput,
    buildPrompt userInput (Some theme) = VBuiltin name.
Proof.
  unfold inherited. intros H.
  destruct (assoc theme object_prototype) as [v|] eqn:E; [|discriminate].
  unfold object_prototype in E. cbn [assoc] in E.
  repeat match type of E with
         | (if jsstring_eqb ?k theme then _ else _) = _ =>
             let Ek := fresh "Ek" in
             destruct (jsstring_eqb k theme) eqn:Ek;
             [apply jsstring_eqb_eq in Ek; subst theme;
              eexists; intros userInput; reflexivity|]
         end.
  discriminate E.
Qed.

Lemma inherited_theme_gets_builtin_witness :
  exists name, forall userInput,
    buildPrompt userInput (Some (lit "hasOwnProperty")) = VBuiltin name.
Proof.
  apply (inherited_theme_gets_builtin (lit "hasOwnProperty")). reflexivity.
Defined.

End PromptShape.

(** ** More on the generation handler *)

Section HandlerRuns.

Local Open Scope Z_scope.
Local Open Scope server_scope.

(** *** Steps that leave the world alone *)

Lemma stateless_ret {A : Type} (a : A) : stateless (ret a).
Proof. intros w. reflexivity. Qed.

Lemma stateless_throw {A : Type} (e : js_error) : stateless (@throw A e).
Proof. intros w. reflexivity. Qed.

Lemma stateless_bind {A B : Type} (m : M A) (k : A -> M B) :
  stateless m -> (forall a, stateless (k a)) -> stateless (bind m k).
Proof.
  intros Hm Hk w. unfold bind. rewrite (Hm w), (Hm start).
  cbn [snd]. destruct (snd (m start)) as [e|a]; [reflexivity|].
  rewrite (Hk a w), (Hk a start). reflexivity.
Qed.

Lemma stateless_get_named (v : js) (name : string) : stateless (get_named v name).
Proof.
  destruct v as [[| | | | |]|]; simpl;
    first [apply stateless_ret | apply stateless_throw].
Qed.

Lemma stateless_get_first (v : js) : stateless (get_first v).
Proof.
  destruct v as [[| | | | |]|]; simpl;
    first [apply stateless_ret | apply stateless_throw].
Qed.

Lemma stateless_validate (v : js) : stateless (validate v).
Proof.
  unfold validate. destruct (negb (to_boolean v)); [apply stateless_ret|].
  destruct v as [[| | | s | |]|]; try apply stateless_throw.
  destruct (List.length (trim s) =? 0)%nat; apply stateless_ret.
Qed.

Ltac stateless_step :=
  first [ apply stateless_get_named | apply stateless_get_first
        | apply stateless_ret | apply stateless_throw ].

Lemma stateless_first_text (data : json) : stateless (first_text data).
Proof.
  unfold first_text.
  repeat (apply stateless_bind; [stateless_step|];
          intros ?; destruct (negb (to_boolean _)); [stateless_step|]).
  stateless_step.
Qed.

Lemma stateless_clean_text (text : js) : stateless (clean_text text).
Proof. destruct text as [[| | | | |]|]; simpl; stateless_step. Qed.

(** *** Steps that throw plain errors only *)

Lemma plain_plain_error (msg : string) : plain (plain_error msg).
Proof. split; reflexivity. Qed.

Lemma throws_plain_ret {A : Type} (a : A) : throws_plain (ret a).
Proof. intros e H. discriminate H. Qed.

Lemma throws_plain_throw {A : Type} (msg : string) :
  throws_plain (@throw A (plain_error msg)).
Proof. intros e [= <-]. apply plain_plain_error. Qed.

Lemma throws_plain_bind {A B : Type} (m : M A) (k : A -> M B) :
  stateless m -> throws_plain m -> (forall a, throws_plain (k a)) ->
  throws_plain (bind m k).
Proof.
  intros Hs Hm Hk e. unfold bind. rewrite (Hs start). cbn [snd].
  destruct (snd (m start)) as [e'|a] eqn:E.
  - intros [= <-]. now apply Hm.
  - apply Hk.
Qed.

Lemma throws_plain_get_named (v : js) (name : string) :
  throws_plain (get_named v name).
Proof.
  destruct v as [[| | | | |]|]; simpl;
    first [apply throws_plain_ret | apply throws_plain_throw].
Qed.

Lemma throws_plain_get_first (v : js) : throws_plain (get_first v).
Proof.
  destruct v as [[| | | | |]|]; simpl;
    first [apply throws_plain_ret | apply throws_plain_throw].
Qed.

Lemma throws_plain_validate (v : js) : throws_plain (validate v).
Proof.
  unfold validate. destruct (negb (to_boolean v)); [apply throws_plain_ret|].
  destruct v as [[| | | s | |]|]; try apply throws_plain_throw.
  destruct (List.length (trim s) =? 0)%nat; apply throws_plain_ret.
Qed.

Ltac plain_step :=
  first [ apply throws_plain_get_named | apply throws_plain_get_first
        | apply throws_plain_ret | apply throws_plain_throw ].

Lemma throws_plain_first_text (data : json) : throws_plain (first_text data).
Proof.
  unfold first_text.
  repeat (apply throws_plain_bind; [stateless_step | plain_step |];
          intros ?; destruct (negb (to_boolean _)); [plain_step|]).
  plain_step.
Qed.

Lemma throws_plain_clean_text (text : js) : throws_plain (clean_text text).
Proof. destruct text as [[| | | | |]|]; simpl; plain_step. Qed.

Lemma clean_text_result (text : js) (poem : jsstring) :
  snd (clean_text text start) = inr poem ->
  exists s, text = Some (JString s) /\ poem = cleanPoem s.
Proof.
  destruct text as [[| | | s | |]|]; simpl; try discriminate.
  intros [= <-]. now exists s.
Qed.

(** *** The catch block *)

Lemma on_error_plain (e : js_error) (w : world) :
  plain e ->
  on_error e w
  = ({| sent := sent w ++ [unexpected_reply];
        trace := trace w ++ [log_failure] |}, inr tt).
Proof.
  intros [Hr Hc]. unfold on_error, bind, emit. rewrite Hr, Hc. reflexivity.
Qed.

Lemma on_error_run (e : js_error) (w : world) :
  exists r logs,
    on_error e w
    = ({| sent := sent w ++ [r]; trace := trace w ++ logs |}, inr tt)
    /\ In r error_table
    /\ posts logs = [].
Proof.
  unfold on_error, bind, emit, error_json, send. cbn [sent trace].
  destruct (response e) as [r|].
  - cbn [sent trace].
    repeat match goal with
           | |- context [if ?b then _ else _] => destruct b
           end;
      eexists; exists [log_failure; log_remote];
      (split; [rewrite <- app_assoc; reflexivity|]);
      (split; [unfold error_table; simpl; tauto | reflexivity]).
  - destruct (code e) as [c|]; [destruct (jsstring_eqb c _)|];
      eexists; exists [log_failure];
      (split; [reflexivity|]);
      (split; [unfold error_table; simpl; tauto | reflexivity]).
Qed.

(** *** The run of the handler, branch by branch *)

Lemma generate_poem_run (env : environment) (req : request_body) :
  generate_poem env req start
  = match snd (validate (userInput req) start) with
    | inl e => on_error e start
    | inr Rejected => ({| sent := [validation_reply]; trace := [] |}, inr tt)
    | inr (Accepted text) =>
        if key_missing env then
          ({| sent := [configuration_reply]; trace := [log_no_key] |}, inr tt)
        else
          let prompt := buildPrompt text (theme req) in
          let called :=
            {| sent := []; trace := [PromptBuilt prompt; AxiosPost prompt] |} in
          match axios_post env prompt with
          | inl e => on_error e called
          | inr data =>
              match snd (first_text data start) with
              | inl e => on_error e called
              | inr text' =>
                  match snd (clean_text text' start) with
                  | inl e => on_error e called
                  | inr poem =>
                      ({| sent := [{| status := 200;
                                      body := GenerationResult poem (theme req)
                                                (now env) |}];
                          trace := [PromptBuilt prompt; AxiosPost prompt] |},
                       inr tt)
                  end
              end
          end
    end.
Proof.
  pose proof (stateless_validate (userInput req) start) as Hv.
  destruct (snd (validate (userInput req) start)) as [e|[|text]];
    unfold generate_poem, try_catch, generate; unfold bind at 1; rewrite Hv;
    [reflexivity | reflexivity |].
  destruct (key_missing env); [reflexivity|].
  unfold remote_call, bind, emit. cbn [sent trace start app].
  destruct (axios_post env (buildPrompt text (theme req))) as [e|data];
    [reflexivity|].
  unfold ret. rewrite (stateless_first_text data _).
  destruct (snd (first_text data start)) as [e|text']; [reflexivity|].
  rewrite (stateless_clean_text text' _).
  destruct (snd (clean_text text' start)) as [e|poem]; reflexivity.
Qed.

Lemma validate_accepted_result (s : jsstring) :
  trim s <> [] -> snd (validate (Some (JString s)) start) = inr (Accepted s).
Proof. intros H. now rewrite (validate_accepts s start H). Qed.

End HandlerRuns.

Section HandlerBranches.

Local Open Scope Z_scope.

Lemma validate_accepted_inv (v : js) (s : jsstring) :
  snd (validate v start) = inr (Accepted s) ->
  v = Some (JString s) /\ trim s <> [].
Proof.
  unfold validate. destruct (negb (to_boolean v)); [discriminate|].
  destruct v as [[| | | t | |]|]; try discriminate.
  destruct (trim t) as [|c r] eqn:E; simpl; [discriminate|].
  intros [= ->]. split; [reflexivity|]. rewrite E. discriminate.
Qed.

Lemma error_table_bodies (r : http_response) :
  In r error_table -> exists msg retry, body r = ErrorResponse msg retry.
Proof.
  unfold error_table. simpl.
  intros H. repeat (destruct H as [<-|H]; [eexists; eexists; reflexivity|]).
  destruct H.
Qed.

Lemma posts_app (a b : list event) : posts (a ++ b) = posts a ++ posts b.
Proof. apply filter_app. Qed.

(** Every run of the handler has one of two shapes: an error reply before
    any outbound call, or one outbound call followed by an error reply or
    by the success reply around a cleaned text. *)
Lemma generate_poem_shape (env : environment) (req : request_body) :
  (exists r,
      sent (run_generate_poem env req) = [r]
      /\ In r error_table
      /\ posts (trace (run_generate_poem env req)) = [])
  \/ (exists s logs,
        userInput req = Some (JString s)
        /\ trim s <> []
        /\ key_missing env = false
        /\ trace (run_generate_poem env req)
           = [PromptBuilt (buildPrompt s (theme req));
              AxiosPost (buildPrompt s (theme req))] ++ logs
        /\ posts logs = []
        /\ ((exists r, sent (run_generate_poem env req) = [r] /\ In r error_table)
            \/ (exists text,
                  sent (run_generate_poem env req)
                  = [{| status := 200;
                        body := GenerationResult (cleanPoem text) (theme req)
                                  (now env) |}]))).
Proof.
  unfold run_generate_poem. rewrite generate_poem_run.
  destruct (snd (validate (userInput req) start)) as [e|[|s]] eqn:Ev.
  - left. destruct (on_error_run e start) as (r & logs & -> & Hr & Hl).
    exists r. cbn. auto.
  - left. exists validation_reply. cbn. unfold error_table. simpl. auto.
  - apply validate_accepted_inv in Ev. destruct Ev as [Hu Ht].
    destruct (key_missing env) eqn:Hk.
    + left. exists configuration_reply. cbn. unfold error_table. simpl. auto.
    + right. exists s.
      assert (Herr : forall e,
                 exists logs,
                   trace (fst (on_error e
                        {| sent := [];
                           trace := [PromptBuilt (buildPrompt s (theme req));
                                     AxiosPost (buildPrompt s (theme req))] |}))
                      = [PromptBuilt (buildPrompt s (theme req));
                         AxiosPost (buildPrompt s (theme req))] ++ logs
                   /\ posts logs = []
                   /\ exists r,
                        sent (fst (on_error e
                          {| sent := [];
                             trace := [PromptBuilt (buildPrompt s (theme req));
                                       AxiosPost (buildPrompt s (theme req))] |}))
                        = [r] /\ In r error_table).
      { intros e.
        match goal with
        | |- context [on_error e ?w] =>
            destruct (on_error_run e w) as (r & logs & -> & Hr & Hl)
        end.
        exists logs. cbn [fst sent trace app]. repeat split; try assumption.
        exists r. split; [reflexivity | assumption]. }
      cbv zeta.
      destruct (axios_post env (buildPrompt s (theme req))) as [e|data].
      { destruct (Herr e) as (logs & H1 & H2 & H3).
        exists logs. repeat split; try assumption. now left. }
      destruct (snd (first_text data start)) as [e|text'].
      { destruct (Herr e) as (logs & H1 & H2 & H3).
        exists logs. repeat split; try assumption. now left. }
      destruct (snd (clean_text text' start)) as [e|poem] eqn:Ec.
      { destruct (Herr e) as (logs & H1 & H2 & H3).
        exists logs. repeat split; try assumption. now left. }
      apply clean_text_result in Ec. destruct Ec as (text & _ & ->).
      exists []. cbn [fst sent trace]. repeat split; try assumption.
      right. exists text. reflexivity.
Qed.

(** X15: with a valid [userInput] but no credential the reply is the 500
    configuration error; one line is logged, no prompt is built and the
    remote service is not called. *)
Theorem missing_credential_rejected
    (env : environment) (req : request_body) (s : jsstring) :
  userInput req = Some (JString s) ->
  trim s <> [] ->
  key_missing env = true ->
  run_generate_poem env req
  = {| sent := [configuration_reply]; trace := [log_no_key] |}.
Proof.
  intros Hu Ht Hk. unfold run_generate_poem.
  rewrite generate_poem_run, Hu, (validate_accepted_result s Ht), Hk.
  reflexivity.
Qed.

Lemma missing_credential_rejected_witness :
  run_generate_poem unconfigured_env sunset_request
  = {| sent := [configuration_reply]; trace := [log_no_key] |}.
Proof.
  apply (missing_credential_rejected unconfigured_env sunset_request
           (lit "evening by the sea")).
  - reflexivity.
  - vm_compute. discriminate.
  - reflexivity.
Defined.

(** X16: with a valid [userInput], a credential and a remote reply whose
    first text part is a string, the reply is 200 with that text cleaned,
    the theme of the request and the clock's time; the prompt built is the
    one posted, once. *)
Theorem well_formed_reply_succeeds
    (env : environment) (req : request_body) (s text : jsstring) (data : json) :
  userInput req = Some (JString s) ->
  trim s <> [] ->
  key_missing env = false ->
  axios_post env (buildPrompt s (theme req)) = inr data ->
  snd (first_text data start) = inr (Some (JString text)) ->
  run_generate_poem env req
  = {| sent := [{| status := 200;
                   body := GenerationResult (cleanPoem text) (theme req)
                             (now env) |}];
       trace := [PromptBuilt (buildPrompt s (theme req));
                 AxiosPost (buildPrompt s (theme req))] |}.
Proof.
  intros Hu Ht Hk Ha Hf. unfold run_generate_poem.
  rewrite generate_poem_run, Hu, (validate_accepted_result s Ht), Hk.
  cbv zeta. rewrite Ha, Hf. reflexivity.
Qed.

Lemma well_formed_reply_succeeds_witness :
  run_generate_poem answering_env sunset_request
  = {| sent := [{| status := 200;
                   body := GenerationResult (cleanPoem sample_poem)
                             (Some (lit "sunset")) (now answering_env) |}];
       trace := [PromptBuilt (buildPrompt (lit "evening by the sea")
                                (Some (lit "sunset")));
                 AxiosPost (buildPrompt (lit "evening by the sea")
                              (Some (lit "sunset")))] |}.
Proof.
  apply (well_formed_reply_succeeds answering_env sunset_request
           (lit "evening by the sea") sample_poem
           (candidates_reply sample_poem)).
  - reflexivity.
  - vm_compute. discriminate.
  - reflexivity.
  - reflexivity.
  - reflexivity.
Defined.

(** X17: when the remote call succeeds but the reply does not hold a
    string as the first text part of its first candidate, the reply to the
    caller is the generic 500, logged once, after the one outbound call. *)
Theorem malformed_reply_gives_500
    (env : environment) (req : request_body) (s : jsstring) (data : json) :
  userInput req = Some (JString s) ->
  trim s <> [] ->
  key_missing env = false ->
  axios_post env (buildPrompt s (theme req)) = inr data ->
  (forall text, snd (first_text data start) <> inr (Some (JString text))) ->
  run_generate_poem env req
  = {| sent := [unexpected_reply];
       trace := [PromptBuilt (buildPrompt s (theme req));
                 AxiosPost (buildPrompt s (theme req)); log_failure] |}.
Proof.
  intros Hu Ht Hk Ha Hf. unfold run_generate_poem.
  rewrite generate_poem_run, Hu, (validate_accepted_result s Ht), Hk.
  cbv zeta. rewrite Ha.
  destruct (snd (first_text data start)) as [e|text'] eqn:Ef.
  - rewrite on_error_plain by (now apply (throws_plain_first_text data)).
    reflexivity.
  - destruct (snd (clean_text text' start)) as [e|poem] eqn:Ec.
    + rewrite on_error_plain by (now apply (throws_plain_clean_text text')).
      reflexivity.
    + apply clean_text_result in Ec. destruct Ec as (text & -> & _).
      exfalso. now apply (Hf text).
Qed.

Lemma malformed_reply_gives_500_witness :
  sent (run_generate_poem empty_answer_env sunset_request) = [unexpected_reply].
Proof.
  rewrite (malformed_reply_gives_500 empty_answer_env sunset_request
             (lit "evening by the sea")
             (JObject [ (lit "candidates", JArray []) ])).
  - reflexivity.
  - reflexivity.
  - vm_compute. discriminate.
  - reflexivity.
  - reflexivity.
  - intros text. vm_compute. discriminate.
Defined.

(** X18: a truthy [userInput] that is not a string (a number, [true], an
    array, an object) has no [trim]: the reply is the generic 500, not the
    400 of the validation, and nothing is sent to the remote service. *)
Theorem non_string_input_gives_500 (env : environment) (req : request_body) :
  to_boolean (userInput req) = true ->
  (forall s, userInput req <> Some (JString s)) ->
  run_generate_poem env req
  = {| sent := [unexpected_reply]; trace := [log_failure] |}.
Proof.
  intros Ht Hns. unfold run_generate_poem. rewrite generate_poem_run.
  unfold validate. rewrite Ht. cbn [negb].
  destruct (userInput req) as [[| b | n | s | l | l]|];
    try discriminate Ht; try reflexivity.
  exfalso. now apply (Hns s).
Qed.

Lemma non_string_input_gives_500_witness :
  run_generate_poem answering_env
    {| userInput := Some (JArray [JString (lit "rain")]); theme := None |}
  = {| sent := [unexpected_reply]; trace := [log_failure] |}.
Proof.
  apply non_string_input_gives_500.
  - reflexivity.
  - intros s. discriminate.
Defined.

(** X19: every falsy [userInput] ([null], [false], [0], the empty string,
    or none at all) gets the 400 of the validation and nothing else
    happens. *)
Theorem falsy_input_rejected (env : environment) (req : request_body) :
  to_boolean (userInput req) = false ->
  run_generate_poem env req = {| sent := [validation_reply]; trace := [] |}.
Proof.
  intros Hf. unfold run_generate_poem. rewrite generate_poem_run.
  unfold validate. rewrite Hf. reflexivity.
Qed.

Lemma falsy_input_rejected_witness :
  run_generate_poem answering_env
    {| userInput := Some (JNumber 0); theme := Some (lit "lovelines") |}
  = {| sent := [validation_reply]; trace := [] |}.
Proof. apply falsy_input_rejected. reflexivity. Defined.

(** X20: a request causes at most one outbound call, and one is made only
    for a [userInput] that is a non-blank string and with a credential
    present; the call carries the prompt built from that input and the
    theme of the request. *)
Theorem at_most_one_outbound_call (env : environment) (req : request_body) :
  posts (trace (run_generate_poem env req)) = []
  \/ exists s,
       userInput req = Some (JString s)
       /\ trim s <> []
       /\ key_missing env = false
       /\ posts (trace (run_generate_poem env req))
          = [AxiosPost (buildPrompt s (theme req))].
Proof.
  destruct (generate_poem_shape env req)
    as [(r & _ & _ & Hp)|(s & logs & Hu & Ht & Hk & Htr & Hl & _)].
  - now left.
  - right. exists s. repeat split; try assumption.
    rewrite Htr, posts_app, Hl. reflexivity.
Qed.

(** X21: the one reply of the handler is the success payload or one of
    nine fixed error replies: the message and the retry hint never come
    from the remote service's answer or from the thrown error. *)
Theorem reply_is_success_or_fixed_error
    (env : environment) (req : request_body) :
  exists r,
    sent (run_generate_poem env req) = [r]
    /\ (success_reply env req r \/ In r error_table).
Proof.
  destruct (generate_poem_shape env req)
    as [(r & Hs & Hr & _)|(s & logs & _ & _ & _ & _ & _ & [(r & Hs & Hr)|(text & Hs)])].
  - exists r. auto.
  - exists r. auto.
  - eexists. split; [exact Hs|]. left. eexists. reflexivity.
Qed.

(** X22: a poem sent to the caller went through [cleanPoem]: it is sent
    with status 200, holds no asterisk, has at most five lines and no white
    space at either end. *)
Theorem sent_poem_is_clean
    (env : environment) (req : request_body) (r : http_response)
    (poem : jsstring) (t : option jsstring) (ts : jsstring) :
  In r (sent (run_generate_poem env req)) ->
  body r = GenerationResult poem t ts ->
  status r = 200
  /\ ~ In STAR poem
  /\ (List.length (split_lines poem) <= 5)%nat
  /\ trim poem = poem.
Proof.
  intros Hin Hb.
  destruct (generate_poem_shape env req)
    as [(r0 & Hs & Hr & _)|(s & logs & _ & _ & _ & _ & _ & [(r0 & Hs & Hr)|(text & Hs)])];
    rewrite Hs in Hin; destruct Hin as [<-|[]].
  - apply error_table_bodies in Hr. destruct Hr as (m & rt & Hr). congruence.
  - apply error_table_bodies in Hr. destruct Hr as (m & rt & Hr). congruence.
  - cbn [body] in Hb. injection Hb as <- _ _.
    split; [reflexivity|]. split; [apply cleanPoem_no_star|].
    split; [|apply cleanPoem_trimmed].
    rewrite split_lines_length. pose proof (cleanPoem_nl_count text). lia.
Qed.

Lemma sent_poem_is_clean_witness :
  ~ In STAR (cleanPoem sample_poem)
  /\ (List.length (split_lines (cleanPoem sample_poem)) <= 5)%nat.
Proof.
  assert (H : In {| status := 200;
                    body := GenerationResult (cleanPoem sample_poem)
                              (Some (lit "sunset")) (now answering_env) |}
                 (sent (run_generate_poem answering_env sunset_request))).
  { left. vm_compute. reflexivity. }
  pose proof (sent_poem_is_clean answering_env sunset_request _
                (cleanPoem sample_poem) (Some (lit "sunset"))
                (now answering_env) H eq_refl) as (_ & H1 & H2 & _).
  split; assumption.
Defined.

(** X23: the reply of the catch block depends only on how the failure is
    classified (its HTTP status, a timeout, or neither), not on the remote
    service's error body or on the error's message. *)
Theorem error_reply_depends_on_class_only (e1 e2 : js_error) (w : world) :
  classify e1 = classify e2 ->
  sent (fst (on_error e1 w)) = sent (fst (on_error e2 w)).
Proof.
  unfold classify, on_error, bind, emit, error_json, send.
  destruct (response e1) as [r1|], (response e2) as [r2|].
  - intros [= ->]. cbn [sent trace fst].
    repeat match goal with
           | |- context [if ?b then _ else _] => destruct b
           end; reflexivity.
  - destruct (code e2) as [c|]; [destruct (jsstring_eqb c _)|]; discriminate.
  - destruct (code e1) as [c|]; [destruct (jsstring_eqb c _)|]; discriminate.
  - destruct (code e1) as [c1|]; [destruct (jsstring_eqb c1 _)|];
      (destruct (code e2) as [c2|]; [destruct (jsstring_eqb c2 _)|]);
      intros H; try discriminate H; reflexivity.
Qed.

Lemma error_reply_depends_on_class_only_witness :
  sent (fst (on_error
          {| message := lit "Request failed with status code 503";
             response := Some {| reply_status := 503;
                                 reply_data := JString (lit "overloaded") |};
             code := Some (lit "ERR_BAD_RESPONSE") |} start))
  = sent (fst (on_error
          {| message := lit "other";
             response := Some {| reply_status := 503; reply_data := JNull |};
             code := None |} start)).
Proof. apply error_reply_depends_on_class_only. reflexivity. Defined.

End HandlerBranches.

(** ** More on routing *)

Section RoutingFacts.

Local Open Scope Z_scope.

Lemma unanswered_request_gets_404_witness :
  serve (fun _ => None) answering_env
    {| method := POST; path := lit "/api/poems"; body_error := None;
       req_body := sunset_request |}
  = [not_found_reply].
Proof.
  apply unanswered_request_gets_404; reflexivity.
Defined.

(** X25: the layer registered after the 404 middleware is never
    consulted: the application answers every request exactly as it would
    without that layer. *)
Theorem fallback_is_dead_code
    (public : jsstring -> option jsstring) (env : environment) (req : request) :
  dispatch (app public env) req
  = dispatch (app_without_fallback public env) req.
Proof.
  unfold app, app_without_fallback. cbn [dispatch].
  destruct (cors_layer req); [reflexivity|].
  destruct (json_layer req); [reflexivity|].
  destruct (static_layer public req); [reflexivity|].
  destruct (health_route env req); [reflexivity|].
  destruct (generate_poem_route env req); reflexivity.
Qed.

(** X26: whatever the method and the path, whether the body parses or
    not, and whether [express.static] serves a file for the path or passes
    on, the application sends exactly one response. *)
Theorem every_request_gets_one_response
    (public : jsstring -> option jsstring) (env : environment) (req : request) :
  exists r, serve public env req = [r].
Proof.
  unfold serve, app. cbn [dispatch].
  unfold cors_layer, json_layer, static_layer, health_route,
    generate_poem_route, not_found_layer, error_json.
  destruct (method req) eqn:Em; cbn [reads andb];
    try (eexists; reflexivity);
    (destruct (body_error req); [eexists; reflexivity|]);
    try (destruct (public (path req)); [eexists; reflexivity|]);
    try (destruct (route_matches "/api/health" (path req));
         eexists; reflexivity);
    try (eexists; reflexivity).
  destruct (route_matches "/api/generate-poem" (path req));
    [|eexists; reflexivity].
  destruct (generate_poem_always_one env (req_body req) start)
    as (w' & r & E & Hs & _).
  exists r. rewrite E. exact Hs.
Qed.

(** X27: a GET or HEAD for the health path, with no body that fails to
    parse and when [public] has no file of that name, is answered 200 with
    status ["ok"], the fixed message and the clock's time, whether or not a
    credential is configured. *)
Theorem health_check_answers_ok
    (public : jsstring -> option jsstring) (env : environment) (req : request) :
  reads (method req) = true ->
  route_matches "/api/health" (path req) = true ->
  body_error req = None ->
  public (path req) = None ->
  serve public env req = [health_reply env].
Proof.
  intros Hm Hp Hb Hpub. unfold serve, app. cbn [dispatch].
  unfold cors_layer, json_layer, static_layer, health_route.
  rewrite Hm, Hp, Hb, Hpub.
  destruct (method req); try discriminate Hm; reflexivity.
Qed.

Lemma health_check_answers_ok_witness :
  serve (fun _ => None) unconfigured_env
    {| method := GET; path := lit "/api/health"; body_error := None;
       req_body := {| userInput := None; theme := None |} |}
  = [health_reply unconfigured_env].
Proof. apply health_check_answers_ok; reflexivity. Defined.

(** X28: a POST to the generation path whose body parsed reaches the
    handler whatever [public] holds, and the application's response is the
    handler's. *)
Theorem post_generate_poem_reaches_handler
    (public : jsstring -> option jsstring) (env : environment) (req : request) :
  method req = POST ->
  route_matches "/api/generate-poem" (path req) = true ->
  body_error req = None ->
  serve public env req = sent (run_generate_poem env (req_body req)).
Proof.
  intros Hm Hp Hb. unfold serve, run_generate_poem.
  now rewrite (parsed_post_dispatch public env req Hm Hp Hb).
Qed.

Lemma post_generate_poem_reaches_handler_witness :
  serve (fun p => Some p) answering_env
    {| method := POST; path := lit "/api/generate-poem"; body_error := None;
       req_body := sunset_request |}
  = sent (run_generate_poem answering_env sunset_request).
Proof.
  apply (post_generate_poem_reaches_handler (fun p => Some p) answering_env
           {| method := POST; path := lit "/api/generate-poem";
              body_error := None; req_body := sunset_request |});
    reflexivity.
Defined.



End RoutingFacts.

(** ** The cleaner only removes text *)

Section OnlyRemoves.

Lemma subseq_refl {A : Type} (l : list A) : subseq l l.
Proof. induction l; constructor; assumption. Qed.

Lemma subseq_nil_l {A : Type} (l : list A) : subseq [] l.
Proof. induction l; constructor; assumption. Qed.

Lemma subseq_trans {A : Type} (a b c : list A) :
  subseq a b -> subseq b c -> subseq a c.
Proof.
  intros Hab Hbc. revert a Hab.
  induction Hbc as [|x b c Hbc IH|x b c Hbc IH]; intros a Hab.
  - exact Hab.
  - inversion Hab as [|y a' b' Ha'|y a' b' Ha']; subst.
    + constructor. now apply IH.
    + apply subseq_drop. now apply IH.
  - apply subseq_drop. now apply IH.
Qed.

Lemma subseq_app {A : Type} (a b c d : list A) :
  subseq a b -> subseq c d -> subseq (a ++ c) (b ++ d).
Proof.
  intros Hab Hcd. induction Hab; simpl;
    [assumption | now apply subseq_keep | now apply subseq_drop].
Qed.

Lemma subseq_suffix {A : Type} (p r : list A) : subseq r (p ++ r).
Proof.
  change r with ([] ++ r) at 1.
  apply subseq_app; [apply subseq_nil_l | apply subseq_refl].
Qed.

Lemma subseq_prefix {A : Type} (p r : list A) : subseq p (p ++ r).
Proof.
  rewrite <- (app_nil_r p) at 1.
  apply subseq_app; [apply subseq_refl | apply subseq_nil_l].
Qed.

Lemma subseq_filter {A : Type} (f : A -> bool) (l : list A) :
  subseq (List.filter f l) l.
Proof.
  induction l as [|x l IH]; [constructor|].
  simpl. destruct (f x); [now apply subseq_keep | now apply subseq_drop].
Qed.

Lemma subseq_firstn {A : Type} (n : nat) (l : list A) : subseq (firstn n l) l.
Proof.
  rewrite <- (firstn_skipn n l) at 2. apply subseq_prefix.
Qed.

Lemma subseq_trimStart (s : jsstring) : subseq (trimStart s) s.
Proof.
  destruct (trimStart_split s) as (w & E & _).
  rewrite E at 2. apply subseq_suffix.
Qed.

Lemma subseq_trimEnd (s : jsstring) : subseq (trimEnd s) s.
Proof.
  induction s as [|c r IH]; [constructor|].
  destruct (trimEnd_cases c r) as [[_ ->]|[_ ->]].
  - destruct (is_white_space c); [apply subseq_nil_l|].
    apply subseq_keep, subseq_nil_l.
  - now apply subseq_keep.
Qed.

Lemma subseq_trim (s : jsstring) : subseq (trim s) s.
Proof.
  unfold trim.
  eapply subseq_trans; [apply subseq_trimEnd | apply subseq_trimStart].
Qed.

Lemma subseq_remove_double_star (s : jsstring) :
  subseq (remove_double_star s) s.
Proof.
  induction s as [| c | c d r IH1 IH2] using pair_induction;
    [constructor | apply subseq_refl |].
  rewrite remove_double_star_cons2.
  destruct ((c =? STAR) && (d =? STAR))%N.
  - now apply subseq_drop, subseq_drop.
  - now apply subseq_keep.
Qed.

Lemma subseq_replace_here (s : jsstring) : subseq (replace_here s) s.
Proof.
  unfold replace_here. destruct (match_here s) as [rest|] eqn:E;
    [|apply subseq_refl].
  destruct (match_here_split s rest E) as (a & w & Hs & _).
  rewrite Hs.
  change (a ++ COLON :: w ++ rest) with (a ++ (COLON :: w) ++ rest).
  rewrite app_assoc. apply subseq_suffix.
Qed.

Lemma subseq_replace_title (s : jsstring) : subseq (replace_title s) s.
Proof.
  unfold replace_title. destruct (match_title s) as [rest|] eqn:E;
    [|apply subseq_refl].
  destruct (match_title_split s rest E) as (a & Hs & _).
  rewrite Hs. change (a ++ LF :: rest) with (a ++ [LF] ++ rest).
  rewrite app_assoc. apply subseq_suffix.
Qed.

(** Joining fewer of the lines gives a subsequence of the joined text. *)
Lemma subseq_join_lines (ks ls : list jsstring) :
  subseq ks ls -> subseq (join_lines ks) (join_lines ls).
Proof.
  induction 1 as [|l ks ls H IH|l ks ls H IH]; [constructor| |].
  - destruct ks as [|k ks'].
    + destruct ls as [|l' ls']; [apply subseq_refl|].
      rewrite (join_lines_cons l (l' :: ls')) by discriminate.
      apply subseq_prefix.
    + destruct ls as [|l' ls']; [inversion H|].
      rewrite !join_lines_cons by discriminate.
      apply subseq_app; [apply subseq_refl|]. now apply subseq_keep.
  - destruct ls as [|l' ls'].
    + inversion H. apply subseq_nil_l.
    + rewrite (join_lines_cons l (l' :: ls')) by discriminate.
      eapply subseq_trans; [exact IH|].
      change (l ++ LF :: join_lines (l' :: ls'))
        with (l ++ [LF] ++ join_lines (l' :: ls')).
      rewrite app_assoc. apply subseq_suffix.
Qed.

Lemma subseq_keep_five (ls : list jsstring) : subseq (keep_five ls) ls.
Proof.
  unfold keep_five. destruct (5 <? List.length ls)%nat;
    [apply subseq_firstn | apply subseq_refl].
Qed.

(** X3: the cleaner only removes text: its output is the input with some
    code units taken out and the others left in their order. *)
Theorem cleanPoem_only_removes (text : jsstring) :
  subseq (cleanPoem text) text.
Proof.
  rewrite cleanPoem_unfold.
  eapply subseq_trans; [apply subseq_trim|].
  eapply subseq_trans.
  { apply subseq_join_lines. unfold kept_lines.
    eapply subseq_trans; [apply subseq_keep_five | apply subseq_filter]. }
  rewrite join_split_lines.
  eapply subseq_trans; [apply subseq_replace_title|].
  eapply subseq_trans; [apply subseq_replace_here|].
  eapply subseq_trans; [apply subseq_filter|].
  eapply subseq_trans; [apply subseq_remove_double_star|].
  apply subseq_trim.
Qed.

End OnlyRemoves.
